(** * xml_to_xlsx: catalog XML flattening, size estimation and skip logging

    A shallow embedding of [src/xml_to_xlsx.py] and the properties of its
    Size Estimator ([count_upc_elements]), Flattening Parser
    ([parse_contact_lens_xml]), Skip Logger ([log_skipped_file]) and of the
    body of the batch loop ([process_file]).

    Python integers are [Z]; Python strings are [string]; a Python [dict]
    with string keys is an association list in insertion order; [None] is
    [option]'s [None].  Library calls that can raise return an [outcome];
    code that prints, appends to the log or writes a spreadsheet runs in the
    state-and-exception monad [M]. *)

From Stdlib Require Import ZArith List String Ascii Bool Lia Sorted.
From Stdlib Require Import DecimalString.
Import ListNotations.
Local Open Scope string_scope.
Local Open Scope Z_scope.

Set Implicit Arguments.
Set Warnings "-register-all".

(* ================================================================== *)
(** ** Python values *)

(** A [dict] with string keys and string values, in insertion order. *)
Definition dict := list (string * string).

(** [d.get(key, default)]. *)
Fixpoint dict_get (d : dict) (key default : string) : string :=
  match d with
  | [] => default
  | (k, v) :: d' => if (k =? key)%string then v else dict_get d' key default
  end.

(** [d[key]] when the key is present, [None] standing for "no such key". *)
Fixpoint dict_lookup (d : dict) (key : string) : option string :=
  match d with
  | [] => None
  | (k, v) :: d' => if (k =? key)%string then Some v else dict_lookup d' key
  end.

Definition keys (d : dict) : list string := map fst d.

(** [x in l] for a list of strings. *)
Definition str_in (x : string) (l : list string) : bool :=
  existsb (String.eqb x) l.

(** The exceptions the program distinguishes: its handlers are
    [except MemoryError], [except ET.ParseError as e] and
    [except Exception as e].  [OtherException kind detail] is any other
    subclass of [Exception], with [kind = type(e).__name__] and
    [detail = str(e)]. *)
Inductive exn : Type :=
| MemoryError
| ParseError (detail : string)
| OtherException (kind detail : string).

(** [type(e).__name__] and [str(e)]. *)
Definition exn_name (e : exn) : string :=
  match e with
  | MemoryError => "MemoryError"
  | ParseError _ => "ParseError"
  | OtherException kind _ => kind
  end.

Definition exn_str (e : exn) : string :=
  match e with
  | MemoryError => ""
  | ParseError detail => detail
  | OtherException _ detail => detail
  end.

(** The result of a call that may raise. *)
Inductive outcome (A : Type) : Type :=
| Returned (a : A)
| Raised (e : exn).
Arguments Returned {A} a.
Arguments Raised {A} e.

(** [str(n)] for an integer. *)
Definition str_of_Z (n : Z) : string :=
  match n with
  | Zneg p => "-" ++ NilZero.string_of_uint (Pos.to_uint p)
  | _ => NilZero.string_of_uint (N.to_uint (Z.to_N n))
  end.

(** Insert a comma after every third character of a reversed digit list. *)
Fixpoint group3 (rev_digits : list ascii) : list ascii :=
  match rev_digits with
  | a :: b :: c :: ((_ :: _) as rest) => a :: b :: c :: ","%char :: group3 rest
  | l => l
  end.

Definition commas (digits : string) : string :=
  string_of_list_ascii (rev (group3 (rev (list_ascii_of_string digits)))).

(** [f"{n:,}"]: decimal with thousands separators. *)
Definition format_commas (n : Z) : string :=
  match n with
  | Zneg p => "-" ++ commas (NilZero.string_of_uint (Pos.to_uint p))
  | _ => commas (NilZero.string_of_uint (N.to_uint (Z.to_N n)))
  end.

(* ================================================================== *)
(** ** os.path (POSIX flavour) *)

Module os_path.

Fixpoint has_sep (p : string) : bool :=
  match p with
  | EmptyString => false
  | String c rest => if Ascii.eqb c "/" then true else has_sep rest
  end.

(** [os.path.basename(p)]: what follows the last ['/']. *)
Fixpoint basename (p : string) : string :=
  match p with
  | EmptyString => EmptyString
  | String c rest =>
      if has_sep rest then basename rest
      else if Ascii.eqb c "/" then rest else p
  end.

Definition startswith_sep (p : string) : bool :=
  match p with
  | String c _ => Ascii.eqb c "/"
  | EmptyString => false
  end.

Fixpoint endswith_sep (p : string) : bool :=
  match p with
  | EmptyString => false
  | String c EmptyString => Ascii.eqb c "/"
  | String _ rest => endswith_sep rest
  end.

(** [os.path.join(a, b)]. *)
Definition join (a b : string) : string :=
  if startswith_sep b then b
  else if orb (a =? "")%string (endswith_sep a) then a ++ b
  else a ++ "/" ++ b.

(** [s.rfind(c)]: the last index of [c] in [s], or [-1]. *)
Fixpoint rfind_from (c : ascii) (s : string) (i : Z) (last : Z) : Z :=
  match s with
  | EmptyString => last
  | String d rest =>
      rfind_from c rest (i + 1) (if Ascii.eqb d c then i else last)
  end.

Definition rfind (c : ascii) (s : string) : Z := rfind_from c s 0 (-1).

(** Is there a character other than ['.'] at an index in [[lo, hi)]? *)
Fixpoint non_dot_between (s : string) (i lo hi : Z) : bool :=
  match s with
  | EmptyString => false
  | String d rest =>
      if andb (andb (lo <=? i) (i <? hi)) (negb (Ascii.eqb d "."))
      then true
      else non_dot_between rest (i + 1) lo hi
  end.

(** [os.path.splitext(p)]: the extension starts at the last dot of the last
    component, leading dots of that component apart. *)
Definition splitext (p : string) : string * string :=
  let sepIndex := rfind "/" p in
  let dotIndex := rfind "." p in
  if andb (dotIndex >? sepIndex)
          (non_dot_between p 0 (sepIndex + 1) dotIndex)
  then (substring 0 (Z.to_nat dotIndex) p,
        substring (Z.to_nat dotIndex) (String.length p - Z.to_nat dotIndex) p)
  else (p, "").

End os_path.

(* ================================================================== *)
(** ** xml.etree.ElementTree *)

(** An element: tag, attribute dictionary, text ([None] when the element has
    no character data before its first child or end tag) and children. *)
Inductive Element : Type :=
| Elem (tag : string) (attrib : dict) (text : option string)
       (children : list Element).

Definition tag (e : Element) : string :=
  match e with Elem t _ _ _ => t end.
Definition attrib (e : Element) : dict :=
  match e with Elem _ a _ _ => a end.
Definition text (e : Element) : option string :=
  match e with Elem _ _ x _ => x end.
Definition children (e : Element) : list Element :=
  match e with Elem _ _ _ cs => cs end.

Definition has_tag (t : string) (e : Element) : bool := (tag e =? t)%string.

Module ET.

(** [elem.get(key, default)]. *)
Definition get (e : Element) (key default : string) : string :=
  dict_get (attrib e) key default.

(** [elem.findall(t)] for a plain tag: the direct children with that tag,
    in document order. *)
Definition findall (e : Element) (t : string) : list Element :=
  filter (has_tag t) (children e).

(** [elem.findtext(t, default)] for a plain tag: the text of the first
    direct child with that tag (the empty string when that child has no
    text), [default] when there is no such child. *)
Definition findtext (e : Element) (t default : string) : string :=
  match findall e t with
  | [] => default
  | c :: _ => match text c with None => "" | Some s => s end
  end.

(** [elem.iter(t)]: the element itself when its tag is [t], then the
    matching elements of each child's subtree, in document order. *)
Fixpoint iter (t : string) (e : Element) : list Element :=
  match e with
  | Elem _ _ _ cs =>
      (if has_tag t e then [e] else []) ++ flat_map (iter t) cs
  end.

(** [elem.findall('.//' + t)]: ElementPath walks [elem.iter(t)] and skips
    [elem] itself, which leaves the matching elements of the children's
    subtrees. *)
Definition findall_descendant (e : Element) (t : string) : list Element :=
  flat_map (iter t) (children e).

(** The elements handed out by [iterparse(..., events=("end",))] for a
    well-formed document: every element at its end tag, so children before
    their parent. *)
Fixpoint end_events (e : Element) : list Element :=
  match e with
  | Elem _ _ _ cs => flat_map end_events cs ++ [e]
  end.

End ET.

(* ================================================================== *)
(** ** pandas *)

(** A table: column labels and, for every row, one cell per column.  A cell
    is [None] where pandas would hold its missing-value marker (NaN). *)
Record DataFrame : Type := mkDataFrame {
  columns : list string;
  data : list (list (option string))
}.

Module pd.

(** Column labels of [pd.DataFrame(rows)] for a list of dicts: the keys in
    order of first appearance. *)
Fixpoint add_keys (acc ks : list string) : list string :=
  match ks with
  | [] => acc
  | k :: ks' => add_keys (if str_in k acc then acc else acc ++ [k]) ks'
  end.

Definition union_keys (rows : list dict) : list string :=
  fold_left (fun acc r => add_keys acc (keys r)) rows [].

(** [pd.DataFrame(rows)]. *)
Definition DataFrame_of (rows : list dict) : DataFrame :=
  let cols := union_keys rows in
  mkDataFrame cols (map (fun r => map (dict_lookup r) cols) rows).

(** [len(df)]. *)
Definition len (df : DataFrame) : Z := Z.of_nat (List.length (data df)).

(** [df.empty]: some axis has length zero. *)
Definition empty (df : DataFrame) : bool :=
  match data df, columns df with
  | [], _ => true
  | _, [] => true
  | _, _ => false
  end.

Fixpoint index_of (c : string) (cols : list string) : option nat :=
  match cols with
  | [] => None
  | k :: cols' =>
      if (k =? c)%string then Some O
      else option_map S (index_of c cols')
  end.

Definition cell (cols : list string) (row : list (option string))
           (c : string) : option string :=
  match index_of c cols with
  | Some i => nth i row None
  | None => None
  end.

(** [df[cols]]: the listed columns in the listed order; a label that is not
    a column raises [KeyError]. *)
Definition getitem (df : DataFrame) (cols : list string)
  : outcome DataFrame :=
  if forallb (fun c => str_in c (columns df)) cols
  then Returned (mkDataFrame cols
                   (map (fun row => map (cell (columns df) row) cols)
                        (data df)))
  else Raised (OtherException "KeyError" "not in index").

End pd.

(* ================================================================== *)
(** ** The environment of one call *)

(** What is stored at a path, as the XML library sees it. *)
Inductive Document : Type :=
| WellFormed (root : Element)
    (** a well-formed document with this element tree *)
| Malformed (closed : list Element) (detail : string)
    (** a syntax error with message [detail], met after the end tags of the
        elements [closed] *)
| Unreadable (kind detail : string)
    (** the file cannot be opened: [open] raises an [OSError] subclass *).

(** The world around one call of the Parser.  Besides the file system it
    holds the failures that do not depend on the document's text (memory
    exhaustion, I/O errors), one slot per library call that the program
    guards with a handler, and the clock. *)
Record World : Type := mkWorld {
  fs : string -> Document;
  iter_fault : option (nat * exn);
    (** the incremental scan raises after handing out this many elements *)
  parse_fault : option exn;       (** [ET.parse] raises *)
  build_fault : option exn;
    (** the traversal or the construction of the table raises *)
  excel_fault : option exn;       (** [df.to_excel] raises *)
  clock : string
    (** [datetime.now().strftime("%Y-%m-%d %H:%M:%S")] *)
}.

(** [ET.iterparse(filepath, events=("end",))]: the elements handed out, and
    the exception that ends the iteration, if any. *)
Definition ET_iterparse (w : World) (filepath : string)
  : list Element * option exn :=
  let stream :=
    match fs w filepath with
    | WellFormed root => (ET.end_events root, None)
    | Malformed closed detail => (closed, Some (ParseError detail))
    | Unreadable kind detail => ([], Some (OtherException kind detail))
    end in
  match iter_fault w with
  | Some (k, e) =>
      if (k <=? List.length (fst stream))%nat
      then (firstn k (fst stream), Some e)
      else stream
  | None => stream
  end.

(** [ET.parse(filepath).getroot()]. *)
Definition ET_parse (w : World) (filepath : string) : outcome Element :=
  match parse_fault w with
  | Some e => Raised e
  | None =>
      match fs w filepath with
      | WellFormed root => Returned root
      | Malformed _ detail => Raised (ParseError detail)
      | Unreadable kind detail => Raised (OtherException kind detail)
      end
  end.

(* ================================================================== *)
(** ** Effects *)

(** What the program leaves behind. *)
Record State : Type := mkState {
  log_file : list string;   (** the lines of [LOG_FILE], oldest first *)
  stdout : list string;     (** the lines printed *)
  parsed : list string;     (** the paths handed to [ET.parse] *)
  xlsx : list (string * DataFrame)
    (** the spreadsheets written: path and table *)
}.

(** Computations that read and change the [State] and may raise. *)
Definition M (A : Type) : Type := State -> outcome A * State.

Definition ret {A} (a : A) : M A := fun s => (Returned a, s).

Definition raise {A} (e : exn) : M A := fun s => (Raised e, s).

Definition bind {A B} (m : M A) (f : A -> M B) : M B :=
  fun s =>
    match m s with
    | (Returned a, s') => f a s'
    | (Raised e, s') => (Raised e, s')
    end.

(** [try: body / except ... as e: handler e].  What the body did to the state
    before raising stays done. *)
Definition try_except {A} (body : M A) (handler : exn -> M A) : M A :=
  fun s =>
    match body s with
    | (Returned a, s') => (Returned a, s')
    | (Raised e, s') => handler e s'
    end.

Definition lift {A} (o : outcome A) : M A := fun s => (o, s).

Notation "x <- m ;; k" := (bind m (fun x => k))
  (at level 61, m at next level, right associativity).
Notation "m ;;; k" := (bind m (fun _ => k))
  (at level 61, right associativity).

(** [print(line)]. *)
Definition print (line : string) : M unit :=
  fun s => (Returned tt,
            mkState (log_file s) (stdout s ++ [line]) (parsed s) (xlsx s)).

Definition nl : string := String "010"%char EmptyString.

(** One line of the log, as [log_skipped_file] formats it. *)
Definition log_line (timestamp filename reason : string) : string :=
  "[" ++ timestamp ++ "] " ++ filename ++ " - " ++ reason ++ nl.

(** [log_skipped_file(filename, reason)]: append one line to the log file
    and print a notice. *)
Definition log_skipped_file (w : World) (filename reason : string) : M unit :=
  fun s =>
    let s' := mkState (log_file s ++ [log_line (clock w) filename reason])
                      (stdout s) (parsed s) (xlsx s) in
    print ("  SKIPPED & LOGGED: " ++ filename ++ " → " ++ reason) s'.

(** The call [ET.parse(filepath)] as an effect: the attempt is recorded. *)
Definition do_parse (w : World) (filepath : string) : M Element :=
  fun s =>
    (ET_parse w filepath,
     mkState (log_file s) (stdout s) (parsed s ++ [filepath]) (xlsx s)).

(** [df.to_excel(output_path, index=False, engine="openpyxl")]. *)
Definition to_excel (w : World) (df : DataFrame) (output_path : string)
  : M unit :=
  fun s =>
    match excel_fault w with
    | Some e => (Raised e, s)
    | None =>
        (Returned tt,
         mkState (log_file s) (stdout s) (parsed s)
                 (xlsx s ++ [(output_path, df)]))
    end.

(* ================================================================== *)
(** ** The program: src/xml_to_xlsx.py *)

(** *** Size Estimator *)

(** The three ways [count_upc_elements] is left: the early [return count]
    inside the loop, the [return count] after it, and the handler's
    [return None]. *)
Inductive scan : Type :=
| EarlyExit (count : Z)
| Completed (count : Z)
| Failed (e : exn).

(** The loop [for event, elem in context], started with [count] elements
    counted so far; [fin] is the exception that ends the iteration, if any.
    ([elem.clear()] drops the element's children, attributes and text and
    keeps its tag, the only thing the loop reads.) *)
Fixpoint scan_events (max_upc_estimate : Z) (count : Z)
         (context : list Element) (fin : option exn) : scan :=
  match context with
  | [] => match fin with
          | None => Completed count
          | Some e => Failed e
          end
  | elem :: rest =>
      if (tag elem =? "upc")%string then
        let count := count + 1 in
        if count >? max_upc_estimate then EarlyExit count
        else scan_events max_upc_estimate count rest fin
      else scan_events max_upc_estimate count rest fin
  end.

Definition scan_file (w : World) (filepath : string) (max_upc_estimate : Z)
  : scan :=
  let context := ET_iterparse w filepath in
  scan_events max_upc_estimate 0 (fst context) (snd context).

(** [count_upc_elements(filepath, max_upc_estimate)]. *)
Definition count_upc_elements (w : World) (filepath : string)
           (max_upc_estimate : Z) : option Z :=
  match scan_file w filepath max_upc_estimate with
  | EarlyExit count => Some count
  | Completed count => Some count
  | Failed _ => None
  end.

(** The default of [max_upc_estimate]. *)
Definition default_max_upc_estimate : Z := 1200000.

(** *** Flattening Parser *)

(** The [row] dict built for one [<upc>]. *)
Definition make_row (mcode mdesc pcode pdesc mode ptrialrev pmodality ptype
                     qty qtyunit : string) (upc : Element) : dict :=
  [ ("Manufacturer_Code", mcode);
    ("Manufacturer_Desc", mdesc);
    ("Product_Code", pcode);
    ("Product_Desc", pdesc);
    ("Product_Mode", mode);
    ("Trial_or_Revenue", ptrialrev);
    ("Modality", pmodality);
    ("Product_Type", ptype);
    ("Quantity", qty);
    ("Quantity_Unit", qtyunit);
    ("UPC_ID", ET.get upc "id" "");
    ("Power", ET.get upc "power" "");
    ("Base_Curve", ET.get upc "basecurve" "");
    ("Diameter", ET.get upc "diameter" "");
    ("Color", ET.get upc "color" "");
    ("Color2", ET.get upc "color2" "");
    ("Cylinder", ET.get upc "cylinder" "");
    ("Axis", ET.get upc "axis" "");
    ("Design", ET.get upc "design" "");
    ("Add", ET.get upc "add" "") ].

(** The body of [for prod in manuf.findall('product')]. *)
Definition rows_of_product (mcode mdesc : string) (prod : Element)
  : list dict :=
  let pcode := ET.findtext prod "pCode" "" in
  let pdesc := ET.findtext prod "pDesc" "" in
  let mode := ET.get prod "mode" "" in
  let qty := ET.findtext prod "qty" "" in
  let qtyunit := ET.findtext prod "qtyUnit" "" in
  let ptrialrev := ET.findtext prod "pTrialOrRev" "" in
  let pmodality := ET.findtext prod "pModality" "" in
  let ptype := ET.findtext prod "pType" "" in
  map (make_row mcode mdesc pcode pdesc mode ptrialrev pmodality ptype
                qty qtyunit)
      (ET.findall prod "upc").

(** The body of [for manuf in root.findall('.//manufacturer')]. *)
Definition rows_of_manufacturer (manuf : Element) : list dict :=
  let mcode := ET.findtext manuf "mCode" "" in
  let mdesc := ET.findtext manuf "mDesc" "" in
  flat_map (rows_of_product mcode mdesc) (ET.findall manuf "product").

(** The list [rows] after the three nested loops. *)
Definition extract_rows (root : Element) : list dict :=
  flat_map rows_of_manufacturer (ET.findall_descendant root "manufacturer").

Definition column_order : list string :=
  [ "Manufacturer_Code"; "Manufacturer_Desc";
    "Product_Code"; "Product_Desc"; "Product_Mode";
    "Trial_or_Revenue"; "Modality"; "Product_Type";
    "Quantity"; "Quantity_Unit";
    "UPC_ID"; "Power"; "Base_Curve"; "Diameter";
    "Color"; "Color2"; "Cylinder"; "Axis"; "Design"; "Add" ].

(** The traversal; an exception that strikes while the rows or the table are
    built (memory exhaustion, say) is raised here. *)
Definition traverse (w : World) (root : Element) : M (list dict) :=
  match build_fault w with
  | Some e => raise e
  | None => ret (extract_rows root)
  end.

(** The reasons the Parser hands to the Skip Logger. *)
Definition reason_too_many_upcs (upc_count : Z) : string :=
  "Too many UPCs (~" ++ format_commas upc_count ++ " > 1M limit)".
Definition reason_too_many_rows (n : Z) : string :=
  "Too many rows (" ++ format_commas n ++ " > Excel max 1,048,576)".
Definition reason_memory_error : string :=
  "MemoryError - file too large for ElementTree/pandas".
Definition reason_parse_error (detail : string) : string :=
  "XML parse error: " ++ detail.
Definition reason_unexpected (kind detail : string) : string :=
  "Unexpected error: " ++ kind ++ " - " ++ detail.

(** The [try] block of [parse_contact_lens_xml]. *)
Definition parse_body (w : World) (filepath filename : string)
  : M (option DataFrame) :=
  root <- do_parse w filepath ;;
  rows <- traverse w root ;;
  match rows with
  | [] =>
      print ("  No <upc> elements found in " ++ filename) ;;;
      ret None
  | _ :: _ =>
      let df := pd.DataFrame_of rows in
      let available_cols :=
        filter (fun col => str_in col (columns df)) column_order in
      df <- lift (pd.getitem df available_cols) ;;
      if pd.len df >? 1048576 then
        log_skipped_file w filename (reason_too_many_rows (pd.len df)) ;;;
        ret None
      else ret (Some df)
  end.

(** The three handlers of [parse_contact_lens_xml], in the order of the
    source. *)
Definition parse_handlers (w : World) (filename : string) (e : exn)
  : M (option DataFrame) :=
  match e with
  | MemoryError =>
      log_skipped_file w filename reason_memory_error ;;; ret None
  | ParseError detail =>
      log_skipped_file w filename (reason_parse_error detail) ;;; ret None
  | OtherException _ _ =>
      log_skipped_file w filename
        (reason_unexpected (exn_name e) (exn_str e)) ;;;
      ret None
  end.

(** [parse_contact_lens_xml(filepath)]: the table, or [None] when the
    document is skipped. *)
Definition parse_contact_lens_xml (w : World) (filepath : string)
  : M (option DataFrame) :=
  let filename := os_path.basename filepath in
  let upc_count := count_upc_elements w filepath default_max_upc_estimate in
  let full_parse :=
    try_except (parse_body w filepath filename) (parse_handlers w filename) in
  match upc_count with
  | Some n =>
      if n >? 1000000 then
        log_skipped_file w filename (reason_too_many_upcs n) ;;;
        ret None
      else full_parse
  | None => full_parse
  end.

(** *** Batch loop *)

(** The directories of [config]. *)
Record Config : Type := mkConfig {
  XML_INPUT_DIR : string;
  XLSX_OUTPUT_DIR : string;
  PROJECT_ROOT : string
}.

(** The body of the main loop for one [filename] that passed the extension
    test. *)
Definition process_file (cfg : Config) (w : World) (filename : string)
  : M unit :=
  let input_path := os_path.join (XML_INPUT_DIR cfg) filename in
  print ("Processing: " ++ filename) ;;;
  df <- parse_contact_lens_xml w input_path ;;
  match df with
  | Some df =>
      if negb (pd.empty df) then
        let base_name := fst (os_path.splitext filename) in
        let output_filename := base_name ++ ".xlsx" in
        let output_path :=
          os_path.join (XLSX_OUTPUT_DIR cfg) output_filename in
        try_except
          (to_excel w df output_path ;;;
           print ("  Saved → " ++ output_filename ++ "  ("
                  ++ str_of_Z (pd.len df) ++ " rows, "
                  ++ str_of_Z (Z.of_nat (List.length (columns df)))
                  ++ " columns)"))
          (fun e =>
             log_skipped_file w filename
               ("Excel write failed: " ++ exn_name e ++ " - " ++ exn_str e))
      else print "  Skipped"
  | None => print "  Skipped"
  end.

(* ================================================================== *)
(** ** Vocabulary of the specification *)

(** The number of elements with tag [t] in the tree of [e], [e] included. *)
Fixpoint count_tag (t : string) (e : Element) : nat :=
  match e with
  | Elem _ _ _ cs =>
      ((if has_tag t e then 1 else 0) + list_sum (map (count_tag t) cs))%nat
  end.

(** A path from an element down its tree: child indices, outermost first. *)
Definition path := list nat.

Fixpoint subelement (e : Element) (p : path) : option Element :=
  match p with
  | [] => Some e
  | i :: p' =>
      match nth_error (children e) i with
      | Some c => subelement c p'
      | None => None
      end
  end.

(** Where a leaf record sits: the path of its manufacturer from the root,
    the index of its product among the manufacturer's children, and its own
    index among the product's children. *)
Record position : Type := mkPos {
  manuf_path : path;
  prod_index : nat;
  upc_index : nat
}.

(** [pos] is the place of a [<upc>] [u] that is a direct child of a
    [<product>] [p] that is a direct child of a [<manufacturer>] [m] lying
    strictly below [root]. *)
Definition leaf_record_at (root : Element) (pos : position)
           (m p u : Element) : Prop :=
  manuf_path pos <> [] /\
  subelement root (manuf_path pos) = Some m /\ tag m = "manufacturer" /\
  nth_error (children m) (prod_index pos) = Some p /\ tag p = "product" /\
  nth_error (children p) (upc_index pos) = Some u /\ tag u = "upc".

(** The same with the manufacturer at any depth, the root included. *)
Definition leaf_record_any_depth (root : Element) (pos : position)
           (m p u : Element) : Prop :=
  subelement root (manuf_path pos) = Some m /\ tag m = "manufacturer" /\
  nth_error (children m) (prod_index pos) = Some p /\ tag p = "product" /\
  nth_error (children p) (upc_index pos) = Some u /\ tag u = "upc".

(** Document order of paths: an element comes before its descendants, and
    an earlier sibling's subtree before a later sibling's. *)
Fixpoint path_ltb (p q : path) : bool :=
  match p, q with
  | [], _ :: _ => true
  | i :: p', j :: q' => orb (i <? j)%nat (andb (i =? j)%nat (path_ltb p' q'))
  | _, _ => false
  end.

Fixpoint path_eqb (p q : path) : bool :=
  match p, q with
  | [], [] => true
  | i :: p', j :: q' => andb (i =? j)%nat (path_eqb p' q')
  | _, _ => false
  end.

(** Traversal order: manufacturers in document order, then products in
    order within the manufacturer, then leaf records within the product. *)
Definition pos_ltb (a b : position) : bool :=
  orb (path_ltb (manuf_path a) (manuf_path b))
      (andb (path_eqb (manuf_path a) (manuf_path b))
            (orb (prod_index a <? prod_index b)%nat
                 (andb (prod_index a =? prod_index b)%nat
                       (upc_index a <? upc_index b)%nat))).

Definition path_lt (p q : path) : Prop := path_ltb p q = true.
Definition pos_lt (a b : position) : Prop := pos_ltb a b = true.

(** The Flat Row joining a manufacturer, one of its products and one of the
    product's leaf records: [mode] and the leaf record's ten fields are
    attributes, the other fields are the text of child elements. *)
Definition flat_row (m p u : Element) : dict :=
  [ ("Manufacturer_Code", ET.findtext m "mCode" "");
    ("Manufacturer_Desc", ET.findtext m "mDesc" "");
    ("Product_Code", ET.findtext p "pCode" "");
    ("Product_Desc", ET.findtext p "pDesc" "");
    ("Product_Mode", ET.get p "mode" "");
    ("Trial_or_Revenue", ET.findtext p "pTrialOrRev" "");
    ("Modality", ET.findtext p "pModality" "");
    ("Product_Type", ET.findtext p "pType" "");
    ("Quantity", ET.findtext p "qty" "");
    ("Quantity_Unit", ET.findtext p "qtyUnit" "");
    ("UPC_ID", ET.get u "id" "");
    ("Power", ET.get u "power" "");
    ("Base_Curve", ET.get u "basecurve" "");
    ("Diameter", ET.get u "diameter" "");
    ("Color", ET.get u "color" "");
    ("Color2", ET.get u "color2" "");
    ("Cylinder", ET.get u "cylinder" "");
    ("Axis", ET.get u "axis" "");
    ("Design", ET.get u "design" "");
    ("Add", ET.get u "add" "") ].

(** *** Where the fields come from

    A column is the text of a child element or the value of an attribute,
    of the manufacturer, of the product or of the leaf record. *)
Inductive level : Type := OfManufacturer | OfProduct | OfLeafRecord.

Inductive source : Type :=
| ChildText (l : level) (t : string)
| Attribute (l : level) (k : string).

Definition field_sources : list (string * source) :=
  [ ("Manufacturer_Code", ChildText OfManufacturer "mCode");
    ("Manufacturer_Desc", ChildText OfManufacturer "mDesc");
    ("Product_Code", ChildText OfProduct "pCode");
    ("Product_Desc", ChildText OfProduct "pDesc");
    ("Product_Mode", Attribute OfProduct "mode");
    ("Trial_or_Revenue", ChildText OfProduct "pTrialOrRev");
    ("Modality", ChildText OfProduct "pModality");
    ("Product_Type", ChildText OfProduct "pType");
    ("Quantity", ChildText OfProduct "qty");
    ("Quantity_Unit", ChildText OfProduct "qtyUnit");
    ("UPC_ID", Attribute OfLeafRecord "id");
    ("Power", Attribute OfLeafRecord "power");
    ("Base_Curve", Attribute OfLeafRecord "basecurve");
    ("Diameter", Attribute OfLeafRecord "diameter");
    ("Color", Attribute OfLeafRecord "color");
    ("Color2", Attribute OfLeafRecord "color2");
    ("Cylinder", Attribute OfLeafRecord "cylinder");
    ("Axis", Attribute OfLeafRecord "axis");
    ("Design", Attribute OfLeafRecord "design");
    ("Add", Attribute OfLeafRecord "add") ].

Definition element_of (l : level) (mpu : Element * Element * Element)
  : Element :=
  match mpu with
  | (m, p, u) =>
      match l with
      | OfManufacturer => m
      | OfProduct => p
      | OfLeafRecord => u
      end
  end.

(** The value read from a source, the empty string being the default. *)
Definition read (mpu : Element * Element * Element) (src : source)
  : string :=
  match src with
  | ChildText l t => ET.findtext (element_of l mpu) t ""
  | Attribute l k => ET.get (element_of l mpu) k ""
  end.

(** The source is missing: no child element with that tag, no attribute
    with that key. *)
Definition absent (mpu : Element * Element * Element) (src : source)
  : bool :=
  match src with
  | ChildText l t =>
      match ET.findall (element_of l mpu) t with
      | [] => true
      | _ :: _ => false
      end
  | Attribute l k =>
      match dict_lookup (attrib (element_of l mpu)) k with
      | None => true
      | Some _ => false
      end
  end.

(** *** The traversal with positions

    The same three loops as [extract_rows], each element paired with the
    place it was found at. *)

Section Indexed.
Variables (A B : Type) (f : nat -> A -> list B).

(** [f i a] for every [a] of the list, [i] its index counted from the
    start value, results concatenated. *)
Fixpoint iflat_map (i : nat) (l : list A) : list B :=
  match l with
  | [] => []
  | a :: l' => f i a ++ iflat_map (S i) l'
  end.
End Indexed.

Definition under (i : nat) (pe : path * Element) : path * Element :=
  (i :: fst pe, snd pe).

(** [ET.iter] with the path of every element found. *)
Fixpoint iter_at (t : string) (e : Element) : list (path * Element) :=
  match e with
  | Elem _ _ _ cs =>
      (if has_tag t e then [([], e)] else [])
      ++ iflat_map (fun i c => map (under i) (iter_at t c)) 0 cs
  end.

Definition findall_descendant_at (e : Element) (t : string)
  : list (path * Element) :=
  iflat_map (fun i c => map (under i) (iter_at t c)) 0 (children e).

(** [ET.findall] with the index of every child found. *)
Definition findall_at (e : Element) (t : string) : list (nat * Element) :=
  iflat_map (fun i c => if has_tag t c then [(i, c)] else []) 0 (children e).

Definition entry : Type := position * (Element * Element * Element).

Definition entries_of_manufacturer (mp : path * Element) : list entry :=
  flat_map
    (fun ip : nat * Element =>
       map (fun ju : nat * Element =>
              (mkPos (fst mp) (fst ip) (fst ju), (snd mp, snd ip, snd ju)))
           (findall_at (snd ip) "upc"))
    (findall_at (snd mp) "product").

Definition leaf_entries (root : Element) : list entry :=
  flat_map entries_of_manufacturer (findall_descendant_at root "manufacturer").

Definition row_of_entry (en : entry) : dict :=
  match snd en with (m, p, u) => flat_row m p u end.

(* ================================================================== *)
(** ** Sample documents and worlds *)

Definition upc_elem (id : string) : Element :=
  Elem "upc" [("id", id)] None [].

Definition leaf (t s : string) : Element := Elem t [] (Some s) [].

(** One manufacturer (code M1), one product (code P1, mode A), two leaf
    records (U1, U2). *)
Definition product_P1 : Element :=
  Elem "product" [("mode", "A")] None
    [ leaf "pCode" "P1"; upc_elem "U1"; upc_elem "U2" ].

Definition manufacturer_M1 : Element :=
  Elem "manufacturer" [] None [ leaf "mCode" "M1"; product_P1 ].

(** The cells expected for a leaf record [id] of that product. *)
Definition cells_M1_P1 (id : string) : list (option string) :=
  [ Some "M1"; Some ""; Some "P1"; Some ""; Some "A";
    Some ""; Some ""; Some ""; Some ""; Some "";
    Some id; Some ""; Some ""; Some ""; Some "";
    Some ""; Some ""; Some ""; Some ""; Some "" ].

(** The manufacturer inside a [<catalog>] root. *)
Definition scenario_A : Element := Elem "catalog" [] None [manufacturer_M1].

(** [n] leaf records under one product of one manufacturer. *)
Definition catalog_of (n : nat) : Element :=
  Elem "catalog" [] None
    [ Elem "manufacturer" [] None
        [ Elem "product" [] None (repeat (upc_elem "U") n) ] ].

(** [n] [<upc>] elements directly under the root, outside any product. *)
Definition loose_upcs (n : nat) : Element :=
  Elem "catalog" [] None (repeat (upc_elem "U") n).

(** A world where every path holds the document [d] and nothing else goes
    wrong. *)
Definition quiet_world (d : Document) : World :=
  mkWorld (fun _ => d) None None None None "2026-01-01 00:00:00".

(** The same, with an incremental scan that fails at once. *)
Definition blind_world (d : Document) : World :=
  mkWorld (fun _ => d) (Some (O, MemoryError)) None None None
          "2026-01-01 00:00:00".

Definition initial : State := mkState [] [] [] [].

(** The number of [<upc>] elements among the elements handed out by a
    scan. *)
Definition upcs_in (context : list Element) : Z :=
  Z.of_nat (List.length (filter (has_tag "upc") context)).

(** The state after the Skip Logger has recorded [reason] for
    [filename]. *)
Definition after_log (w : World) (filename reason : string) (s : State)
  : State :=
  mkState (log_file s ++ [log_line (clock w) filename reason])
          (stdout s
           ++ ["  SKIPPED & LOGGED: " ++ filename ++ " → " ++ reason])
          (parsed s) (xlsx s).

(** The state after [ET.parse] has been attempted on [filepath]. *)
Definition after_parse (filepath : string) (s : State) : State :=
  mkState (log_file s) (stdout s) (parsed s ++ [filepath]) (xlsx s).

(** The state after [line] has been printed. *)
Definition after_print (line : string) (s : State) : State :=
  mkState (log_file s) (stdout s ++ [line]) (parsed s) (xlsx s).

(** The pre-flight check lets the document through: the estimate is [None]
    or at most 1,000,000. *)
Definition preflight_passes (w : World) (filepath : string) : Prop :=
  match count_upc_elements w filepath default_max_upc_estimate with
  | Some n => n <= 1000000
  | None => True
  end.

(** The cells of the table row made from a [row] dict. *)
Definition cells_of_row (r : dict) : list (option string) :=
  map (fun kv => Some (snd kv)) r.

(** The same world at another time. *)
Definition with_clock (w : World) (c : string) : World :=
  mkWorld (fs w) (iter_fault w) (parse_fault w) (build_fault w)
          (excel_fault w) c.

(** *** Measures for the row count

    [rows_below e]: the rows the traversal takes from the manufacturers in
    the tree of [e], [e] included.  [upcs_offered e]: the [<upc>] elements
    that [e] offers to a manufacturer above it, as its product or as a leaf
    record itself. *)
Definition rows_below (e : Element) : nat :=
  List.length (flat_map rows_of_manufacturer (ET.iter "manufacturer" e)).

Definition upcs_offered (e : Element) : nat :=
  ((if has_tag "product" e then List.length (ET.findall e "upc") else 0)
   + (if has_tag "upc" e then 1 else 0))%nat.

(** The orders the indexed lists are sorted by. *)
Definition by_path (a b : path * Element) : Prop := path_lt (fst a) (fst b).
Definition by_index (a b : nat * Element) : Prop := (fst a < fst b)%nat.
Definition by_position (a b : entry) : Prop := pos_lt (fst a) (fst b).

(** The reason each handler of the Parser records. *)
Definition reason_of (e : exn) : string :=
  match e with
  | MemoryError => reason_memory_error
  | ParseError detail => reason_parse_error detail
  | OtherException kind detail => reason_unexpected kind detail
  end.

(** The table made from a non-empty list of rows. *)
Definition table_of (rows : list dict) : DataFrame :=
  mkDataFrame column_order (map cells_of_row rows).

Definition no_upc_notice (filename : string) : string :=
  "  No <upc> elements found in " ++ filename.

(** The full parse raises [e]: in [ET.parse], or while the rows and the
    table are built. *)
Definition full_parse_raises_exn (w : World) (filepath : string) (e : exn)
  : Prop :=
  ET_parse w filepath = Raised e
  \/ exists root, ET_parse w filepath = Returned root
                  /\ build_fault w = Some e.

(** *** The ways a call of the Parser ends

    [parse_run w filepath s r]: started in state [s], the call ends with
    result and state [r].  One constructor per [return] of the source: the
    pre-flight rejection, the three handlers, the empty result, the row
    ceiling and the table. *)
Inductive parse_run (w : World) (filepath : string) (s : State)
  : outcome (option DataFrame) * State -> Prop :=
| run_rejected (n : Z) :
    count_upc_elements w filepath default_max_upc_estimate = Some n ->
    1000000 < n ->
    parse_run w filepath s
      (Returned None,
       after_log w (os_path.basename filepath) (reason_too_many_upcs n) s)
| run_failed (e : exn) :
    preflight_passes w filepath ->
    full_parse_raises_exn w filepath e ->
    parse_run w filepath s
      (Returned None,
       after_log w (os_path.basename filepath) (reason_of e)
                 (after_parse filepath s))
| run_empty (root : Element) :
    preflight_passes w filepath ->
    ET_parse w filepath = Returned root -> build_fault w = None ->
    extract_rows root = [] ->
    parse_run w filepath s
      (Returned None,
       after_print (no_upc_notice (os_path.basename filepath))
                   (after_parse filepath s))
| run_too_many_rows (root : Element) :
    preflight_passes w filepath ->
    ET_parse w filepath = Returned root -> build_fault w = None ->
    1048576 < Z.of_nat (List.length (extract_rows root)) ->
    parse_run w filepath s
      (Returned None,
       after_log w (os_path.basename filepath)
         (reason_too_many_rows (Z.of_nat (List.length (extract_rows root))))
         (after_parse filepath s))
| run_table (root : Element) :
    preflight_passes w filepath ->
    ET_parse w filepath = Returned root -> build_fault w = None ->
    extract_rows root <> [] ->
    Z.of_nat (List.length (extract_rows root)) <= 1048576 ->
    parse_run w filepath s
      (Returned (Some (table_of (extract_rows root))),
       after_parse filepath s).

(** Replace the values read from the elements by variables. *)
Ltac abstract_fields :=
  repeat match goal with
         | |- context [ET.findtext ?e ?t ?d] =>
             generalize (ET.findtext e t d); intro
         | |- context [ET.get ?e ?k ?d] =>
             generalize (ET.get e k d); intro
         end.

(* ================================================================== *)
(** ** The rest of the batch loop *)

(** [c.lower()] for an ASCII character. *)
Definition ascii_lower (c : ascii) : ascii :=
  let n := nat_of_ascii c in
  if andb (65 <=? n)%nat (n <=? 90)%nat then ascii_of_nat (n + 32) else c.

(** [s.lower()], on the bytes of the name.  Python lowers code points; the
    loop only asks whether the lowered name ends in [.xml], no code point
    but [X], [M] and [L] lowers to [x], [m] or [l], and the UTF-8 bytes of a
    code point outside ASCII are never ASCII: the test reads the same on the
    bytes. *)
Fixpoint str_lower (s : string) : string :=
  match s with
  | EmptyString => EmptyString
  | String c rest => String (ascii_lower c) (str_lower rest)
  end.

(** [s.endswith(suffix)]. *)
Fixpoint endswith (s suffix : string) : bool :=
  if (s =? suffix)%string then true
  else match s with
       | EmptyString => false
       | String _ rest => endswith rest suffix
       end.

(** [filename.lower().endswith(('.xml', '.XML'))]. *)
Definition is_xml_name (filename : string) : bool :=
  existsb (endswith (str_lower filename)) [".xml"; ".XML"].

(** [for filename in os.listdir(XML_INPUT_DIR): ...] over the listing of the
    input directory; [env filename] is the world around the call for that
    file. *)
Fixpoint main_loop (cfg : Config) (env : string -> World)
         (listing : list string) : M unit :=
  match listing with
  | [] => ret tt
  | filename :: rest =>
      if negb (is_xml_name filename) then main_loop cfg env rest
      else process_file cfg (env filename) filename ;;;
           main_loop cfg env rest
  end.

(** The path the loop writes the spreadsheet of [filename] to. *)
Definition output_path_of (cfg : Config) (filename : string) : string :=
  os_path.join (XLSX_OUTPUT_DIR cfg)
               (fst (os_path.splitext filename) ++ ".xlsx").

(** The line printed after a spreadsheet is written. *)
Definition saved_notice (filename : string) (df : DataFrame) : string :=
  "  Saved → " ++ (fst (os_path.splitext filename) ++ ".xlsx") ++ "  ("
  ++ str_of_Z (pd.len df) ++ " rows, "
  ++ str_of_Z (Z.of_nat (List.length (columns df))) ++ " columns)".

(** The state after a spreadsheet has been written. *)
Definition after_write (path : string) (df : DataFrame) (s : State)
  : State :=
  mkState (log_file s) (stdout s) (parsed s) (xlsx s ++ [(path, df)]).

(** The reason logged when [to_excel] raises [e]. *)
Definition reason_excel (e : exn) : string :=
  "Excel write failed: " ++ exn_name e ++ " - " ++ exn_str e.

(** The notice [log_skipped_file] prints. *)
Definition skipped_notice (filename reason : string) : string :=
  "  SKIPPED & LOGGED: " ++ filename ++ " → " ++ reason.

(** A table as the loop writes it: the canonical columns, between 1 and
    1,048,576 rows, a string in every cell. *)
Definition canonical_table (df : DataFrame) : Prop :=
  columns df = column_order
  /\ (0 < List.length (data df))%nat
  /\ Z.of_nat (List.length (data df)) <= 1048576
  /\ Forall (fun row => List.length row = 20%nat
                        /\ Forall (fun cell => exists v, cell = Some v) row)
            (data df).

(** Does the character occur in the string? *)
Fixpoint occurs (c : ascii) (s : string) : bool :=
  match s with
  | EmptyString => false
  | String d rest => if Ascii.eqb d c then true else occurs c rest
  end.

(** Is some character of the string not a dot? *)
Fixpoint has_non_dot (s : string) : bool :=
  match s with
  | EmptyString => false
  | String d rest => if Ascii.eqb d "." then has_non_dot rest else true
  end.

(** Is [pre] a prefix of [s]? *)
Fixpoint startswith (s pre : string) : bool :=
  match pre, s with
  | EmptyString, _ => true
  | String c pre', String d s' => andb (Ascii.eqb c d) (startswith s' pre')
  | String _ _, EmptyString => false
  end.

(** The line feed. *)
Definition LF : ascii := "010"%char.

(* ================================================================== *)
(** ** src/utils/writers.py *)

Module writers.

(** What the function leaves on disk: the directories it asked for and the
    files it wrote. *)
Record Disk : Type := mkDisk {
  makedirs_calls : list string;
  written : list (string * dict)
}.

(** [os.makedirs(path, exist_ok=True)]; [fault] is the exception it raises,
    if any. *)
Definition makedirs (fault : option exn) (path : string) (d : Disk)
  : outcome unit * Disk :=
  match fault with
  | Some e => (Raised e, d)
  | None => (Returned tt, mkDisk (makedirs_calls d ++ [path]) (written d))
  end.

(** [write_xlsx_file(data=..., filename=..., archive_path=...)]. *)
Definition write_xlsx_file (fault : option exn) (data : dict)
           (filename archive_path : string) (d : Disk)
  : outcome string * Disk :=
  match makedirs fault archive_path d with
  | (Returned _, d') =>
      let file_path := os_path.join archive_path filename in
      (Returned file_path, d')
  | (Raised _, d') =>
      (Raised (OtherException "RuntimeError"
                 ("Failed to write archive JSON file: " ++ filename)),
       d')
  end.

End writers.

(* ================================================================== *)
(** ** Lists, strings and trees *)

(** Induction on element trees, with the hypothesis for every child. *)
Lemma Element_induction (P : Element -> Prop) :
  (forall t a x cs, Forall P cs -> P (Elem t a x cs)) ->
  forall e, P e.
Proof.
  intros step. fix IH 1. intros [t a x cs]. apply step.
  induction cs as [|c cs IHcs]; constructor; [apply IH | exact IHcs].
Qed.

Lemma string_app_inv_head (s a b : string) : s ++ a = s ++ b -> a = b.
Proof.
  induction s as [|c s IH]; simpl; intros H; [exact H|].
  injection H as H. auto.
Qed.

Lemma list_neq_snoc {A} (l : list A) (x : A) : (l ++ [x])%list <> l.
Proof.
  intros H. apply (f_equal (@List.length A)) in H.
  rewrite length_app in H. simpl in H. lia.
Qed.

Lemma snoc_inj {A} (l : list A) (x y : A) :
  (l ++ [x])%list = (l ++ [y])%list -> x = y.
Proof.
  intros H. apply app_inv_head in H. now injection H.
Qed.

Lemma filter_repeat_true {A} (f : A -> bool) (a : A) (n : nat) :
  f a = true -> filter f (repeat a n) = repeat a n.
Proof.
  intros Ha. induction n as [|n IH]; simpl; [reflexivity|].
  now rewrite Ha, IH.
Qed.

Lemma flat_map_repeat_nil {A B} (f : A -> list B) (a : A) (n : nat) :
  f a = [] -> flat_map f (repeat a n) = [].
Proof.
  intros Ha. induction n as [|n IH]; simpl; [reflexivity|].
  now rewrite Ha, IH.
Qed.

Lemma length_filter_le_sum {A} (f : A -> bool) (g : A -> nat) (l : list A) :
  (forall a, In a l -> f a = true -> (1 <= g a)%nat) ->
  (List.length (filter f l) <= list_sum (map g l))%nat.
Proof.
  induction l as [|a l IH]; simpl; intros H; [lia|].
  assert (List.length (filter f l) <= list_sum (map g l))%nat
    by (apply IH; intros; apply H; auto).
  destruct (f a) eqn:Hfa; simpl; [|lia].
  assert (1 <= g a)%nat by (apply H; auto). lia.
Qed.

(** *** The incremental scan *)

Lemma upcs_in_nonneg (evs : list Element) : 0 <= upcs_in evs.
Proof. unfold upcs_in. lia. Qed.

Lemma upcs_in_cons (e : Element) (evs : list Element) :
  upcs_in (e :: evs)
  = (if (tag e =? "upc")%string then 1 else 0) + upcs_in evs.
Proof.
  unfold upcs_in. cbn [filter]. unfold has_tag at 1.
  destruct (tag e =? "upc")%string; cbn [List.length]; lia.
Qed.

Lemma upcs_in_app (l1 l2 : list Element) :
  upcs_in (l1 ++ l2)%list = upcs_in l1 + upcs_in l2.
Proof.
  unfold upcs_in. rewrite filter_app, length_app. lia.
Qed.

(** The elements of a well-formed document's scan are the elements of its
    tree: as many [<upc>] among them as in the tree. *)
Lemma upcs_in_end_events (e : Element) :
  upcs_in (ET.end_events e) = Z.of_nat (count_tag "upc" e).
Proof.
  induction e as [t a x cs IH] using Element_induction.
  cbn [ET.end_events count_tag].
  rewrite upcs_in_app, upcs_in_cons.
  assert (Hcs : upcs_in (flat_map ET.end_events cs)
                = Z.of_nat (list_sum (map (count_tag "upc") cs))).
  { induction IH as [|c cs Hc _ IHcs]; [reflexivity|].
    change (list_sum (map (count_tag "upc") (c :: cs)))
      with (count_tag "upc" c + list_sum (map (count_tag "upc") cs))%nat.
    cbn [flat_map]. rewrite upcs_in_app, Hc, IHcs. lia. }
  rewrite Hcs. unfold has_tag. cbn [tag].
  destruct (t =? "upc")%string; unfold upcs_in; simpl; lia.
Qed.

(** What the loop returns, whatever the threshold. *)
Lemma scan_events_bounds (mx : Z) (fin : option exn) (evs : list Element) :
  forall c,
    match scan_events mx c evs fin with
    | EarlyExit n => c < n <= c + upcs_in evs /\ mx < n
    | Completed n => n = c + upcs_in evs /\ fin = None
    | Failed e => fin = Some e
    end.
Proof.
  induction evs as [|e evs IH]; intros c.
  - simpl. destruct fin; [reflexivity|]. unfold upcs_in. simpl. split; [lia|auto].
  - cbn [scan_events]. rewrite upcs_in_cons.
    destruct (tag e =? "upc")%string.
    + destruct (c + 1 >? mx) eqn:Hgt.
      * pose proof (upcs_in_nonneg evs). lia.
      * specialize (IH (c + 1)).
        destruct (scan_events mx (c + 1) evs fin);
          [intuition lia|intuition lia|exact IH].
    + specialize (IH c).
      destruct (scan_events mx c evs fin);
        [intuition lia|intuition lia|exact IH].
Qed.

(** What the loop returns when it starts at or below the threshold. *)
Lemma scan_events_char (mx : Z) (fin : option exn) (evs : list Element) :
  forall c, c <= mx ->
    scan_events mx c evs fin
    = if c + upcs_in evs >? mx then EarlyExit (mx + 1)
      else match fin with
           | None => Completed (c + upcs_in evs)
           | Some e => Failed e
           end.
Proof.
  induction evs as [|e evs IH]; intros c Hc.
  - simpl. unfold upcs_in. simpl. rewrite Z.add_0_r.
    destruct (c >? mx) eqn:H; [lia|reflexivity].
  - cbn [scan_events]. rewrite upcs_in_cons.
    pose proof (upcs_in_nonneg evs) as Hn.
    destruct (tag e =? "upc")%string.
    + destruct (c + 1 >? mx) eqn:Hgt.
      * assert (c = mx) by lia. subst c.
        destruct (mx + (1 + upcs_in evs) >? mx) eqn:H; [reflexivity|lia].
      * rewrite IH by lia. now rewrite Z.add_assoc.
    + rewrite IH by lia. now rewrite Z.add_0_l.
Qed.

(** *** The scan against the document *)

Lemma iterparse_completed (w : World) (filepath : string) :
  snd (ET_iterparse w filepath) = None ->
  exists root, fs w filepath = WellFormed root
               /\ fst (ET_iterparse w filepath) = ET.end_events root.
Proof.
  unfold ET_iterparse.
  destruct (fs w filepath) as [root|closed detail|kind detail];
    destruct (iter_fault w) as [[k e]|]; cbn [fst snd];
    try destruct (k <=? _)%nat; cbn [fst snd];
    try discriminate; eauto.
Qed.

Lemma iterparse_quiet (d : Document) (filepath : string) (root : Element) :
  d = WellFormed root ->
  ET_iterparse (quiet_world d) filepath = (ET.end_events root, None).
Proof. intros ->. reflexivity. Qed.

Lemma iterparse_blind (d : Document) (filepath : string) :
  ET_iterparse (blind_world d) filepath = ([], Some MemoryError).
Proof. unfold ET_iterparse. cbn [iter_fault blind_world]. reflexivity. Qed.

(** A count at or below the threshold is the exact count of a well-formed
    document. *)
Lemma count_exact (w : World) (filepath : string) (mx n : Z) :
  count_upc_elements w filepath mx = Some n -> n <= mx ->
  exists root, fs w filepath = WellFormed root
               /\ n = Z.of_nat (count_tag "upc" root).
Proof.
  unfold count_upc_elements, scan_file. intros H Hn.
  pose proof (scan_events_bounds mx (snd (ET_iterparse w filepath))
                                 (fst (ET_iterparse w filepath)) 0) as B.
  destruct (scan_events mx 0 _ _) as [c|c|e]; [| |discriminate];
    injection H as ->.
  - lia.
  - destruct B as [Hc Hfin].
    destruct (iterparse_completed _ _ Hfin) as (root & Hfs & Hev).
    exists root. split; [exact Hfs|].
    rewrite Hc, Hev, upcs_in_end_events. lia.
Qed.

Lemma count_blind (d : Document) (filepath : string) (mx : Z) :
  count_upc_elements (blind_world d) filepath mx = None.
Proof.
  unfold count_upc_elements, scan_file. now rewrite iterparse_blind.
Qed.

(** *** Rows against leaf-record tags *)

Lemma list_sum_map_add {A} (f g : A -> nat) (l : list A) :
  list_sum (map (fun a => f a + g a)%nat l)
  = (list_sum (map f l) + list_sum (map g l))%nat.
Proof.
  induction l as [|a l IH]; [reflexivity|].
  change (f a + g a + list_sum (map (fun a => f a + g a)%nat l)
          = f a + list_sum (map f l) + (g a + list_sum (map g l)))%nat.
  lia.
Qed.

Lemma list_sum_map_le {A} (f g : A -> nat) (l : list A) :
  Forall (fun a => f a <= g a)%nat l ->
  (list_sum (map f l) <= list_sum (map g l))%nat.
Proof.
  induction 1 as [|a l Ha _ IH]; [simpl; lia|].
  change (f a + list_sum (map f l) <= g a + list_sum (map g l))%nat. lia.
Qed.

Lemma length_flat_map_sum {A B} (f : A -> list B) (l : list A) :
  List.length (flat_map f l)
  = list_sum (map (fun a => List.length (f a)) l).
Proof.
  induction l as [|a l IH]; [reflexivity|].
  cbn [flat_map]. rewrite length_app, IH. reflexivity.
Qed.

Lemma flat_map_flat_map {A B C} (f : B -> list C) (g : A -> list B)
      (l : list A) :
  flat_map f (flat_map g l) = flat_map (fun a => flat_map f (g a)) l.
Proof.
  induction l as [|a l IH]; [reflexivity|].
  cbn [flat_map]. now rewrite flat_map_app, IH.
Qed.

Lemma list_sum_filter_le {A} (f : A -> bool) (g h : A -> nat) (l : list A) :
  (forall a, f a = true -> (g a <= h a)%nat) ->
  (list_sum (map g (filter f l)) <= list_sum (map h l))%nat.
Proof.
  intros H. induction l as [|a l IH]; [simpl; lia|].
  cbn [filter].
  change (list_sum (map h (a :: l))) with (h a + list_sum (map h l))%nat.
  destruct (f a) eqn:Hfa; [|lia].
  change (g a + list_sum (map g (filter f l))
          <= h a + list_sum (map h l))%nat.
  specialize (H a Hfa). lia.
Qed.

Lemma length_rows_of_product (mcode mdesc : string) (p : Element) :
  List.length (rows_of_product mcode mdesc p)
  = List.length (ET.findall p "upc").
Proof. unfold rows_of_product. apply length_map. Qed.

Lemma length_rows_of_manufacturer (m : Element) :
  (List.length (rows_of_manufacturer m)
   <= list_sum (map upcs_offered (children m)))%nat.
Proof.
  unfold rows_of_manufacturer, ET.findall at 1.
  rewrite length_flat_map_sum.
  apply list_sum_filter_le. intros p Hp.
  rewrite length_rows_of_product. unfold upcs_offered. rewrite Hp. lia.
Qed.

Lemma rows_below_unfold (t : string) (a : dict) (x : option string)
      (cs : list Element) :
  rows_below (Elem t a x cs)
  = ((if (t =? "manufacturer")%string
      then List.length (rows_of_manufacturer (Elem t a x cs)) else 0)
     + list_sum (map rows_below cs))%nat.
Proof.
  unfold rows_below. cbn [ET.iter]. unfold has_tag. cbn [tag].
  rewrite flat_map_app, length_app, flat_map_flat_map.
  rewrite (length_flat_map_sum _ cs).
  destruct (t =? "manufacturer")%string; cbn [flat_map List.length];
    rewrite ?app_nil_r; reflexivity.
Qed.

(** Every row is taken from a [<upc>] of its own. *)
Lemma rows_below_le (e : Element) :
  (rows_below e + upcs_offered e <= count_tag "upc" e)%nat.
Proof.
  induction e as [t a x cs IH] using Element_induction.
  rewrite rows_below_unfold. cbn [count_tag].
  pose proof (length_rows_of_manufacturer (Elem t a x cs)) as Hm.
  cbn [children] in Hm.
  assert (Hsum : (list_sum (map rows_below cs)
                  + list_sum (map upcs_offered cs)
                  <= list_sum (map (count_tag "upc") cs))%nat).
  { rewrite <- list_sum_map_add. now apply list_sum_map_le. }
  assert (Hu : (List.length (ET.findall (Elem t a x cs) "upc")
                <= list_sum (map upcs_offered cs))%nat).
  { unfold ET.findall. cbn [children].
    apply length_filter_le_sum. intros c _ Hc.
    unfold upcs_offered. rewrite Hc. lia. }
  unfold upcs_offered, has_tag. cbn [tag].
  destruct (t =? "manufacturer")%string eqn:E1;
    destruct (t =? "product")%string eqn:E2;
    destruct (t =? "upc")%string eqn:E3;
    try (apply String.eqb_eq in E1); try (apply String.eqb_eq in E2);
    try (apply String.eqb_eq in E3); subst; try discriminate; lia.
Qed.

Lemma length_extract_rows (root : Element) :
  (List.length (extract_rows root) <= count_tag "upc" root)%nat.
Proof.
  destruct root as [t a x cs].
  unfold extract_rows, ET.findall_descendant. cbn [children count_tag].
  rewrite flat_map_flat_map, length_flat_map_sum.
  assert (list_sum (map rows_below cs)
          <= list_sum (map (count_tag "upc") cs))%nat.
  { apply list_sum_map_le. apply Forall_forall. intros c _.
    pose proof (rows_below_le c). lia. }
  unfold rows_below in *. lia.
Qed.

(* ================================================================== *)
(** ** The table *)

Lemma make_row_flat_row (m p u : Element) :
  make_row (ET.findtext m "mCode" "") (ET.findtext m "mDesc" "")
           (ET.findtext p "pCode" "") (ET.findtext p "pDesc" "")
           (ET.get p "mode" "") (ET.findtext p "pTrialOrRev" "")
           (ET.findtext p "pModality" "") (ET.findtext p "pType" "")
           (ET.findtext p "qty" "") (ET.findtext p "qtyUnit" "") u
  = flat_row m p u.
Proof. reflexivity. Qed.

(** Every row of the traversal joins one manufacturer, one product and one
    leaf record. *)
Lemma extract_rows_flat (root : Element) :
  Forall (fun r => exists m p u, r = flat_row m p u) (extract_rows root).
Proof.
  apply Forall_forall. intros r Hr.
  unfold extract_rows in Hr. apply in_flat_map in Hr as (m & _ & Hr).
  unfold rows_of_manufacturer in Hr. apply in_flat_map in Hr as (p & _ & Hr).
  unfold rows_of_product in Hr. apply in_map_iff in Hr as (u & Hr & _).
  exists m, p, u. now rewrite <- Hr, make_row_flat_row.
Qed.

Lemma keys_flat_row (m p u : Element) : keys (flat_row m p u) = column_order.
Proof. reflexivity. Qed.

Lemma lookup_flat_row (m p u : Element) :
  map (dict_lookup (flat_row m p u)) column_order
  = cells_of_row (flat_row m p u).
Proof. unfold flat_row. abstract_fields. reflexivity. Qed.

Lemma cell_flat_row (m p u : Element) :
  map (pd.cell column_order (cells_of_row (flat_row m p u))) column_order
  = cells_of_row (flat_row m p u).
Proof. unfold flat_row. abstract_fields. reflexivity. Qed.

Lemma add_keys_column_order (acc : list string) :
  acc = [] \/ acc = column_order ->
  pd.add_keys acc column_order = column_order.
Proof. intros [-> | ->]; reflexivity. Qed.

Lemma fold_add_keys (rows : list dict) :
  Forall (fun r => keys r = column_order) rows ->
  forall acc, acc = [] \/ acc = column_order ->
    rows <> [] \/ acc = column_order ->
    fold_left (fun acc r => pd.add_keys acc (keys r)) rows acc
    = column_order.
Proof.
  induction 1 as [|r rows Hr _ IH]; intros acc Hacc Hor.
  - destruct Hor as [Hor|Hor]; [now elim Hor|exact Hor].
  - change (fold_left (fun acc r => pd.add_keys acc (keys r)) rows
                      (pd.add_keys acc (keys r)) = column_order).
    rewrite Hr, (add_keys_column_order Hacc).
    apply IH; right; reflexivity.
Qed.

Lemma union_keys_flat (rows : list dict) :
  rows <> [] ->
  Forall (fun r => exists m p u, r = flat_row m p u) rows ->
  pd.union_keys rows = column_order.
Proof.
  intros Hne Hall. unfold pd.union_keys. apply fold_add_keys.
  - eapply Forall_impl; [|exact Hall].
    intros r (m & p & u & ->). apply keys_flat_row.
  - now left.
  - now left.
Qed.

Lemma DataFrame_of_flat (rows : list dict) :
  rows <> [] ->
  Forall (fun r => exists m p u, r = flat_row m p u) rows ->
  pd.DataFrame_of rows = table_of rows.
Proof.
  intros Hne Hall. unfold pd.DataFrame_of, table_of.
  rewrite (union_keys_flat Hne Hall). f_equal.
  apply map_ext_in. intros r Hr.
  rewrite Forall_forall in Hall. destruct (Hall r Hr) as (m & p & u & ->).
  apply lookup_flat_row.
Qed.

Lemma getitem_table_of (rows : list dict) :
  Forall (fun r => exists m p u, r = flat_row m p u) rows ->
  pd.getitem (table_of rows)
             (filter (fun col => str_in col (columns (table_of rows)))
                     column_order)
  = Returned (table_of rows).
Proof.
  intros Hall. unfold table_of. cbn [columns].
  change (filter (fun col => str_in col column_order) column_order)
    with column_order.
  unfold pd.getitem. cbn [columns data].
  change (forallb (fun c => str_in c column_order) column_order) with true.
  cbv iota. do 2 f_equal. rewrite map_map.
  apply map_ext_in. intros r Hr.
  rewrite Forall_forall in Hall. destruct (Hall r Hr) as (m & p & u & ->).
  apply cell_flat_row.
Qed.

Lemma len_table_of (rows : list dict) :
  pd.len (table_of rows) = Z.of_nat (List.length rows).
Proof. unfold pd.len, table_of. cbn [data]. now rewrite length_map. Qed.

(* ================================================================== *)
(** ** The Parser, case by case *)

Lemma parse_handlers_run (w : World) (filename : string) (e : exn)
      (s : State) :
  parse_handlers w filename e s
  = (Returned None, after_log w filename (reason_of e) s).
Proof. destruct e; reflexivity. Qed.

(** Pre-flight rejection. *)
Lemma parse_rejects_estimate (w : World) (filepath : string) (s : State)
      (n : Z) :
  count_upc_elements w filepath default_max_upc_estimate = Some n ->
  1000000 < n ->
  parse_contact_lens_xml w filepath s
  = (Returned None,
     after_log w (os_path.basename filepath) (reason_too_many_upcs n) s).
Proof.
  intros Hc Hn. unfold parse_contact_lens_xml. rewrite Hc.
  destruct (n >? 1000000) eqn:E; [reflexivity|lia].
Qed.

(** Past the pre-flight check the Parser is its [try] statement. *)
Lemma parse_proceeds (w : World) (filepath : string) (s : State) :
  preflight_passes w filepath ->
  parse_contact_lens_xml w filepath s
  = try_except (parse_body w filepath (os_path.basename filepath))
               (parse_handlers w (os_path.basename filepath)) s.
Proof.
  unfold preflight_passes, parse_contact_lens_xml.
  destruct (count_upc_elements _ _ _) as [n|]; [|reflexivity].
  intros Hn. destruct (n >? 1000000) eqn:E; [lia|reflexivity].
Qed.

Lemma full_parse_raises (w : World) (filepath filename : string)
      (s : State) (e : exn) :
  ET_parse w filepath = Raised e ->
  try_except (parse_body w filepath filename) (parse_handlers w filename) s
  = (Returned None,
     after_log w filename (reason_of e) (after_parse filepath s)).
Proof.
  intros H. unfold try_except, parse_body, bind, do_parse. rewrite H.
  apply parse_handlers_run.
Qed.

Lemma full_parse_build_raises (w : World) (filepath filename : string)
      (s : State) (root : Element) (e : exn) :
  ET_parse w filepath = Returned root -> build_fault w = Some e ->
  try_except (parse_body w filepath filename) (parse_handlers w filename) s
  = (Returned None,
     after_log w filename (reason_of e) (after_parse filepath s)).
Proof.
  intros H Hb. unfold try_except, parse_body, bind, do_parse, traverse.
  rewrite H, Hb. unfold raise. apply parse_handlers_run.
Qed.

Lemma full_parse_empty (w : World) (filepath filename : string)
      (s : State) (root : Element) :
  ET_parse w filepath = Returned root -> build_fault w = None ->
  extract_rows root = [] ->
  try_except (parse_body w filepath filename) (parse_handlers w filename) s
  = (Returned None,
     after_print (no_upc_notice filename) (after_parse filepath s)).
Proof.
  intros H Hb Hr. unfold try_except, parse_body, bind, do_parse, traverse.
  rewrite H, Hb. unfold ret at 1. rewrite Hr. reflexivity.
Qed.

Lemma full_parse_rows (w : World) (filepath filename : string)
      (s : State) (root : Element) :
  ET_parse w filepath = Returned root -> build_fault w = None ->
  extract_rows root <> [] ->
  try_except (parse_body w filepath filename) (parse_handlers w filename) s
  = if Z.of_nat (List.length (extract_rows root)) >? 1048576
    then (Returned None,
          after_log w filename
            (reason_too_many_rows
               (Z.of_nat (List.length (extract_rows root))))
            (after_parse filepath s))
    else (Returned (Some (table_of (extract_rows root))),
          after_parse filepath s).
Proof.
  intros H Hb Hr. unfold try_except, parse_body, bind, do_parse, traverse.
  rewrite H, Hb. unfold ret at 1.
  pose proof (extract_rows_flat root) as Hflat.
  destruct (extract_rows root) as [|r rows] eqn:E; [congruence|].
  rewrite (DataFrame_of_flat Hr Hflat), (getitem_table_of Hflat).
  unfold lift. rewrite len_table_of.
  destruct (Z.of_nat (List.length (r :: rows)) >? 1048576); reflexivity.
Qed.

(* ================================================================== *)
(** ** The traversal with positions *)

Section IndexedFacts.
Context {A B : Type}.

Lemma iflat_map_In (f : nat -> A -> list B) (b : B) (l : list A) :
  forall i0,
    In b (iflat_map f i0 l)
    <-> exists k a, nth_error l k = Some a /\ In b (f (i0 + k)%nat a).
Proof.
  induction l as [|a l IH]; intros i0; cbn [iflat_map].
  - split; [intros []|]. intros (k & a & H & _). now destruct k.
  - rewrite in_app_iff, IH. split.
    + intros [H|(k & a' & Hk & H)].
      * exists 0%nat, a. rewrite Nat.add_0_r. auto.
      * exists (S k), a'. rewrite Nat.add_succ_r. auto.
    + intros ([|k] & a' & Hk & H).
      * left. cbn in Hk. injection Hk as <-.
        now rewrite Nat.add_0_r in H.
      * right. exists k, a'. rewrite Nat.add_succ_r in H. auto.
Qed.

Lemma iflat_map_In0 (f : nat -> A -> list B) (b : B) (l : list A) :
  In b (iflat_map f 0 l)
  <-> exists k a, nth_error l k = Some a /\ In b (f k a).
Proof. apply iflat_map_In. Qed.

Lemma iflat_map_forget {C : Type} (f : nat -> A -> list B) (h : B -> C)
      (g : A -> list C) (l : list A) :
  Forall (fun a => forall i, map h (f i a) = g a) l ->
  forall i0, map h (iflat_map f i0 l) = flat_map g l.
Proof.
  induction 1 as [|a l Ha _ IH]; intros i0; [reflexivity|].
  cbn [iflat_map flat_map]. now rewrite map_app, Ha, IH.
Qed.

Lemma StronglySorted_app (R : B -> B -> Prop) (l1 l2 : list B) :
  StronglySorted R l1 -> StronglySorted R l2 ->
  (forall a b, In a l1 -> In b l2 -> R a b) ->
  StronglySorted R (l1 ++ l2).
Proof.
  induction 1 as [|a l1 H1 IH Ha]; intros H2 Hc; [exact H2|].
  cbn [app]. constructor.
  - apply IH; [exact H2|]. intros; apply Hc; [now right|assumption].
  - apply Forall_app. split; [exact Ha|].
    apply Forall_forall. intros b Hb. apply Hc; [now left|exact Hb].
Qed.

Lemma iflat_map_sorted (R : B -> B -> Prop) (f : nat -> A -> list B)
      (l : list A) :
  forall i0,
    (forall k a, nth_error l k = Some a ->
                 StronglySorted R (f (i0 + k)%nat a)) ->
    (forall k1 k2 a1 a2 b1 b2,
        (k1 < k2)%nat ->
        nth_error l k1 = Some a1 -> nth_error l k2 = Some a2 ->
        In b1 (f (i0 + k1)%nat a1) -> In b2 (f (i0 + k2)%nat a2) ->
        R b1 b2) ->
    StronglySorted R (iflat_map f i0 l).
Proof.
  induction l as [|a l IH]; intros i0 Hin Hcross; cbn [iflat_map];
    [constructor|].
  apply StronglySorted_app.
  - specialize (Hin 0%nat a eq_refl). now rewrite Nat.add_0_r in Hin.
  - apply IH.
    + intros k a' Hk. specialize (Hin (S k) a' Hk).
      now rewrite Nat.add_succ_r in Hin.
    + intros k1 k2 a1 a2 b1 b2 Hlt H1 H2 Hb1 Hb2.
      apply (Hcross (S k1) (S k2) a1 a2); auto; try lia;
        now rewrite Nat.add_succ_r.
  - intros b1 b2 Hb1 Hb2.
    apply iflat_map_In in Hb2 as (k & a' & Hk & Hb2).
    apply (Hcross 0%nat (S k) a a'); auto; try lia.
    + now rewrite Nat.add_0_r.
    + rewrite Nat.add_succ_r. exact Hb2.
Qed.

Lemma flat_map_sorted (R' : A -> A -> Prop) (R : B -> B -> Prop)
      (g : A -> list B) (l : list A) :
  StronglySorted R' l ->
  (forall a, In a l -> StronglySorted R (g a)) ->
  (forall a b x y, R' a b -> In x (g a) -> In y (g b) -> R x y) ->
  StronglySorted R (flat_map g l).
Proof.
  induction 1 as [|a l Hl IH Ha]; intros Hin Hcross; cbn [flat_map];
    [constructor|].
  apply StronglySorted_app.
  - apply Hin. now left.
  - apply IH; [|exact Hcross]. intros; apply Hin; now right.
  - intros x y Hx Hy. apply in_flat_map in Hy as (b & Hb & Hy).
    rewrite Forall_forall in Ha. eapply Hcross; eauto.
Qed.

Lemma map_sorted (R' : A -> A -> Prop) (R : B -> B -> Prop)
      (g : A -> B) (l : list A) :
  StronglySorted R' l ->
  (forall a b, R' a b -> R (g a) (g b)) ->
  StronglySorted R (map g l).
Proof.
  induction 1 as [|a l Hl IH Ha]; intros Hg; cbn [map]; constructor.
  - now apply IH.
  - apply Forall_map. eapply Forall_impl; [|exact Ha]. auto.
Qed.

Lemma sorted_NoDup (R : B -> B -> Prop) (l : list B) :
  (forall b, ~ R b b) -> StronglySorted R l -> NoDup l.
Proof.
  intros Hirr. induction 1 as [|a l Hl IH Ha]; constructor; [|exact IH].
  intros Hin. rewrite Forall_forall in Ha. exact (Hirr a (Ha a Hin)).
Qed.

Lemma map_over_flat_map {C : Type} (h : B -> C) (g : A -> list B)
      (l : list A) :
  map h (flat_map g l) = flat_map (fun a => map h (g a)) l.
Proof.
  induction l as [|a l IH]; [reflexivity|].
  cbn [flat_map]. now rewrite map_app, IH.
Qed.

Lemma flat_map_over_map {C : Type} (g : B -> list C) (h : A -> B)
      (l : list A) :
  flat_map g (map h l) = flat_map (fun a => g (h a)) l.
Proof.
  induction l as [|a l IH]; [reflexivity|].
  cbn [map flat_map]. now rewrite IH.
Qed.

End IndexedFacts.

Lemma flat_map_singletons {A} (f : A -> bool) (l : list A) :
  flat_map (fun a => if f a then [a] else []) l = filter f l.
Proof.
  induction l as [|a l IH]; [reflexivity|].
  cbn [flat_map filter]. rewrite IH. now destruct (f a).
Qed.

(** *** Forgetting the positions gives the library's lists *)

Lemma map_snd_under (i : nat) (l : list (path * Element)) :
  map snd (map (under i) l) = map snd l.
Proof. rewrite map_map. reflexivity. Qed.

Lemma iter_at_elements (t : string) (e : Element) :
  map snd (iter_at t e) = ET.iter t e.
Proof.
  induction e as [tg a x cs IH] using Element_induction.
  cbn [iter_at ET.iter]. rewrite map_app. f_equal.
  - now destruct (has_tag t (Elem tg a x cs)).
  - apply iflat_map_forget. eapply Forall_impl; [|exact IH].
    intros c Hc i. now rewrite map_snd_under.
Qed.

Lemma findall_descendant_at_elements (e : Element) (t : string) :
  map snd (findall_descendant_at e t) = ET.findall_descendant e t.
Proof.
  unfold findall_descendant_at, ET.findall_descendant.
  apply iflat_map_forget. apply Forall_forall. intros c _ i.
  now rewrite map_snd_under, iter_at_elements.
Qed.

Lemma findall_at_elements (e : Element) (t : string) :
  map snd (findall_at e t) = ET.findall e t.
Proof.
  unfold findall_at, ET.findall. rewrite <- flat_map_singletons.
  apply iflat_map_forget. apply Forall_forall. intros c _ i.
  now destruct (has_tag t c).
Qed.

(** The rows are the Flat Rows of the entries, in the same order. *)
Lemma extract_rows_entries (root : Element) :
  extract_rows root = map row_of_entry (leaf_entries root).
Proof.
  unfold extract_rows, leaf_entries.
  rewrite <- findall_descendant_at_elements, flat_map_over_map,
    map_over_flat_map.
  apply flat_map_ext. intros [q m]. cbn [snd].
  unfold rows_of_manufacturer, entries_of_manufacturer. cbn [fst snd].
  rewrite <- findall_at_elements, flat_map_over_map, map_over_flat_map.
  apply flat_map_ext. intros [i p]. cbn [fst snd].
  unfold rows_of_product.
  rewrite <- findall_at_elements, !map_map.
  apply map_ext. intros [j u]. reflexivity.
Qed.

(** *** What the positions point at *)

Lemma in_map_under (i : nat) (q : path) (x : Element)
      (l : list (path * Element)) :
  In (q, x) (map (under i) l)
  <-> exists q', q = i :: q' /\ In (q', x) l.
Proof.
  rewrite in_map_iff. split.
  - intros ([q' x'] & H & Hin). unfold under in H. cbn in H.
    injection H as <- <-. eauto.
  - intros (q' & -> & Hin). now exists (q', x).
Qed.

Lemma iter_at_In (t : string) (e : Element) :
  forall q x,
    In (q, x) (iter_at t e) <-> subelement e q = Some x /\ tag x = t.
Proof.
  induction e as [tg a x0 cs IH] using Element_induction. intros q x.
  rewrite Forall_forall in IH.
  cbn [iter_at]. rewrite in_app_iff, iflat_map_In0. split.
  - intros [H|(k & c & Hk & H)].
    + unfold has_tag in H.
      destruct (tag (Elem tg a x0 cs) =? t)%string eqn:E; [|destruct H].
      destruct H as [H|[]]. injection H as <- <-.
      split; [reflexivity|now apply String.eqb_eq].
    + apply in_map_under in H as (q' & -> & H).
      apply (IH c (nth_error_In _ _ Hk)) in H as [Hs Ht].
      split; [|exact Ht]. cbn [subelement children]. now rewrite Hk.
  - intros [Hs Ht]. destruct q as [|k q'].
    + left. cbn in Hs. injection Hs as <-.
      unfold has_tag. apply String.eqb_eq in Ht. rewrite Ht. now left.
    + right. cbn [subelement children] in Hs.
      destruct (nth_error cs k) as [c|] eqn:Hk; [|discriminate].
      exists k, c. split; [exact Hk|].
      apply in_map_under. exists q'. split; [reflexivity|].
      apply (IH c (nth_error_In _ _ Hk)). auto.
Qed.

Lemma findall_descendant_at_In (e : Element) (t : string) (q : path)
      (x : Element) :
  In (q, x) (findall_descendant_at e t)
  <-> q <> [] /\ subelement e q = Some x /\ tag x = t.
Proof.
  unfold findall_descendant_at. rewrite iflat_map_In0. split.
  - intros (k & c & Hk & H).
    apply in_map_under in H as (q' & -> & H).
    apply iter_at_In in H as [Hs Ht].
    split; [discriminate|]. split; [|exact Ht].
    cbn [subelement]. now rewrite Hk.
  - intros (Hq & Hs & Ht). destruct q as [|k q']; [now elim Hq|].
    cbn [subelement] in Hs.
    destruct (nth_error (children e) k) as [c|] eqn:Hk; [|discriminate].
    exists k, c. split; [exact Hk|].
    apply in_map_under. exists q'. split; [reflexivity|].
    apply iter_at_In. auto.
Qed.

Lemma findall_at_In (e : Element) (t : string) (i : nat) (c : Element) :
  In (i, c) (findall_at e t)
  <-> nth_error (children e) i = Some c /\ tag c = t.
Proof.
  unfold findall_at. rewrite iflat_map_In0. split.
  - intros (k & c' & Hk & H). unfold has_tag in H.
    destruct (tag c' =? t)%string eqn:E; [|destruct H].
    destruct H as [H|[]]. injection H as <- <-.
    split; [exact Hk|now apply String.eqb_eq].
  - intros [Hk Ht]. exists i, c. split; [exact Hk|].
    unfold has_tag. apply String.eqb_eq in Ht. rewrite Ht. now left.
Qed.

Lemma leaf_entries_In (root : Element) (pos : position)
      (m p u : Element) :
  In (pos, (m, p, u)) (leaf_entries root) <-> leaf_record_at root pos m p u.
Proof.
  unfold leaf_entries, leaf_record_at. rewrite in_flat_map. split.
  - intros ([q m'] & Hm & H).
    unfold entries_of_manufacturer in H. cbn [fst snd] in H.
    apply in_flat_map in H as ([i p'] & Hp & H). cbn [fst snd] in H.
    apply in_map_iff in H as ([j u'] & H & Hu). cbn [fst snd] in H.
    injection H as <- <- <- <-. cbn [manuf_path prod_index upc_index].
    apply findall_descendant_at_In in Hm as (Hq & Hs & Ht).
    apply findall_at_In in Hp as [Hp Htp].
    apply findall_at_In in Hu as [Hu Htu].
    repeat split; assumption.
  - intros (Hq & Hs & Ht & Hp & Htp & Hu & Htu).
    exists (manuf_path pos, m). split.
    + apply findall_descendant_at_In. auto.
    + unfold entries_of_manufacturer. cbn [fst snd].
      apply in_flat_map. exists (prod_index pos, p). split.
      * apply findall_at_In. auto.
      * cbn [fst snd]. apply in_map_iff. exists (upc_index pos, u).
        split; [now destruct pos|]. apply findall_at_In. auto.
Qed.

(** *** The order of the positions *)

Lemma path_eqb_refl (p : path) : path_eqb p p = true.
Proof.
  induction p as [|i p IH]; [reflexivity|].
  cbn [path_eqb]. now rewrite Nat.eqb_refl, IH.
Qed.

Lemma path_ltb_irrefl (p : path) : path_ltb p p = false.
Proof.
  induction p as [|i p IH]; [reflexivity|].
  cbn [path_ltb]. now rewrite Nat.ltb_irrefl, Nat.eqb_refl, IH.
Qed.

Lemma pos_lt_irrefl (a : position) : ~ pos_lt a a.
Proof.
  unfold pos_lt, pos_ltb.
  rewrite path_ltb_irrefl, path_eqb_refl, !Nat.ltb_irrefl, Nat.eqb_refl.
  discriminate.
Qed.

Lemma path_lt_cons (k : nat) (p q : path) :
  path_lt p q -> path_lt (k :: p) (k :: q).
Proof.
  unfold path_lt. intros H. cbn [path_ltb].
  now rewrite Nat.ltb_irrefl, Nat.eqb_refl, H.
Qed.

Lemma path_lt_heads (k1 k2 : nat) (p q : path) :
  (k1 < k2)%nat -> path_lt (k1 :: p) (k2 :: q).
Proof.
  unfold path_lt. intros H. cbn [path_ltb].
  apply Nat.ltb_lt in H. now rewrite H.
Qed.

Lemma iter_at_sorted (t : string) (e : Element) :
  StronglySorted by_path (iter_at t e).
Proof.
  induction e as [tg a x cs IH] using Element_induction.
  rewrite Forall_forall in IH. cbn [iter_at].
  apply StronglySorted_app.
  - destruct (has_tag t (Elem tg a x cs)); repeat constructor.
  - apply iflat_map_sorted.
    + intros k c Hk. apply map_sorted with (R' := by_path).
      * apply IH. eapply nth_error_In; eauto.
      * intros p q. unfold by_path, under. cbn [fst]. apply path_lt_cons.
    + intros k1 k2 c1 c2 b1 b2 Hlt _ _ H1 H2.
      apply in_map_iff in H1 as (p1 & <- & _).
      apply in_map_iff in H2 as (p2 & <- & _).
      unfold by_path, under. cbn [fst]. now apply path_lt_heads.
  - intros b1 b2 H1 H2.
    destruct (has_tag t (Elem tg a x cs)); [|destruct H1].
    destruct H1 as [<-|[]].
    apply iflat_map_In0 in H2 as (k & c & _ & H2).
    apply in_map_iff in H2 as (p2 & <- & _). reflexivity.
Qed.

Lemma findall_descendant_at_sorted (e : Element) (t : string) :
  StronglySorted by_path (findall_descendant_at e t).
Proof.
  unfold findall_descendant_at. apply iflat_map_sorted.
  - intros k c Hk. apply map_sorted with (R' := by_path).
    + apply iter_at_sorted.
    + intros p q. unfold by_path, under. cbn [fst]. apply path_lt_cons.
  - intros k1 k2 c1 c2 b1 b2 Hlt _ _ H1 H2.
    apply in_map_iff in H1 as (p1 & <- & _).
    apply in_map_iff in H2 as (p2 & <- & _).
    unfold by_path, under. cbn [fst]. now apply path_lt_heads.
Qed.

Lemma findall_at_sorted (e : Element) (t : string) :
  StronglySorted by_index (findall_at e t).
Proof.
  unfold findall_at. apply iflat_map_sorted.
  - intros k c _. destruct (has_tag t c); repeat constructor.
  - intros k1 k2 c1 c2 b1 b2 Hlt _ _ H1 H2.
    destruct (has_tag t c1); [|destruct H1].
    destruct (has_tag t c2); [|destruct H2].
    destruct H1 as [<-|[]]. destruct H2 as [<-|[]].
    unfold by_index. cbn [fst]. lia.
Qed.

Lemma pos_lt_same_product (q : path) (i j1 j2 : nat) :
  (j1 < j2)%nat -> pos_lt (mkPos q i j1) (mkPos q i j2).
Proof.
  intros H. unfold pos_lt, pos_ltb.
  cbn [manuf_path prod_index upc_index].
  apply Nat.ltb_lt in H.
  rewrite path_eqb_refl, Nat.eqb_refl, H.
  now rewrite !orb_true_r.
Qed.

Lemma pos_lt_same_manufacturer (q : path) (i1 i2 j1 j2 : nat) :
  (i1 < i2)%nat -> pos_lt (mkPos q i1 j1) (mkPos q i2 j2).
Proof.
  intros H. unfold pos_lt, pos_ltb.
  cbn [manuf_path prod_index upc_index].
  apply Nat.ltb_lt in H.
  rewrite path_eqb_refl, H. now rewrite orb_true_r.
Qed.

Lemma pos_lt_manufacturers (q1 q2 : path) (i1 i2 j1 j2 : nat) :
  path_lt q1 q2 -> pos_lt (mkPos q1 i1 j1) (mkPos q2 i2 j2).
Proof.
  unfold path_lt, pos_lt, pos_ltb.
  cbn [manuf_path prod_index upc_index]. now intros ->.
Qed.

Lemma entries_of_manufacturer_sorted (mp : path * Element) :
  StronglySorted by_position (entries_of_manufacturer mp).
Proof.
  unfold entries_of_manufacturer.
  apply flat_map_sorted with (R' := by_index).
  - apply findall_at_sorted.
  - intros ip _. apply map_sorted with (R' := by_index).
    + apply findall_at_sorted.
    + intros a b Hab. unfold by_position. cbn [fst].
      now apply pos_lt_same_product.
  - intros a b x y Hab Hx Hy.
    apply in_map_iff in Hx as (ju & <- & _).
    apply in_map_iff in Hy as (ju' & <- & _).
    unfold by_position. cbn [fst]. now apply pos_lt_same_manufacturer.
Qed.

(** The entries come in traversal order. *)
Lemma leaf_entries_sorted (root : Element) :
  StronglySorted pos_lt (map fst (leaf_entries root)).
Proof.
  apply map_sorted with (R' := by_position); [|auto].
  unfold leaf_entries. apply flat_map_sorted with (R' := by_path).
  - apply findall_descendant_at_sorted.
  - intros mp _. apply entries_of_manufacturer_sorted.
  - intros a b x y Hab Hx Hy.
    unfold entries_of_manufacturer in Hx, Hy.
    apply in_flat_map in Hx as (ip & _ & Hx).
    apply in_map_iff in Hx as (ju & <- & _).
    apply in_flat_map in Hy as (ip' & _ & Hy).
    apply in_map_iff in Hy as (ju' & <- & _).
    unfold by_position. cbn [fst]. now apply pos_lt_manufacturers.
Qed.

(* ================================================================== *)
(** ** Every call of the Parser ends in one of five ways *)

Lemma preflight_dec (w : World) (filepath : string) :
  preflight_passes w filepath
  \/ exists n, count_upc_elements w filepath default_max_upc_estimate
               = Some n /\ 1000000 < n.
Proof.
  unfold preflight_passes.
  destruct (count_upc_elements _ _ _) as [n|]; [|now left].
  destruct (Z_le_gt_dec n 1000000); [now left|right].
  exists n. split; [reflexivity|lia].
Qed.

Lemma parse_run_complete (w : World) (filepath : string) (s : State) :
  parse_run w filepath s (parse_contact_lens_xml w filepath s).
Proof.
  destruct (preflight_dec w filepath) as [Hp|(n & Hc & Hn)].
  2:{ rewrite (@parse_rejects_estimate w filepath s n Hc Hn).
      now apply run_rejected. }
  rewrite (@parse_proceeds w filepath s Hp).
  destruct (ET_parse w filepath) as [root|e] eqn:Hparse.
  2:{ rewrite (@full_parse_raises w filepath _ s e Hparse).
      apply run_failed; [exact Hp|now left]. }
  destruct (build_fault w) as [e|] eqn:Hb.
  { rewrite (@full_parse_build_raises w filepath _ s root e Hparse Hb).
    apply run_failed; [exact Hp|right; eauto]. }
  destruct (extract_rows root) as [|r rows] eqn:Hrows.
  { rewrite (@full_parse_empty w filepath _ s root Hparse Hb Hrows).
    now apply run_empty with root. }
  assert (Hne : extract_rows root <> []) by (rewrite Hrows; discriminate).
  rewrite (@full_parse_rows w filepath _ s root Hparse Hb Hne).
  destruct (Z.of_nat (List.length (extract_rows root)) >? 1048576) eqn:E.
  - apply run_too_many_rows; auto. lia.
  - apply run_table; auto. lia.
Qed.

Lemma ET_parse_returned (w : World) (filepath : string) (root : Element) :
  ET_parse w filepath = Returned root -> fs w filepath = WellFormed root.
Proof.
  unfold ET_parse. destruct (parse_fault w); [discriminate|].
  destruct (fs w filepath); [|discriminate|discriminate].
  now intros [= ->].
Qed.

(** A scan that returned a count at or below its threshold saw every
    [<upc>] of the document the full parse reads. *)
Lemma rows_le_count (w : World) (filepath : string) (n : Z)
      (root : Element) :
  count_upc_elements w filepath default_max_upc_estimate = Some n ->
  n <= default_max_upc_estimate ->
  ET_parse w filepath = Returned root ->
  Z.of_nat (List.length (extract_rows root)) <= n.
Proof.
  intros Hc Hn Hparse.
  destruct (@count_exact w filepath _ n Hc Hn) as (root' & Hfs & ->).
  apply ET_parse_returned in Hparse. rewrite Hparse in Hfs.
  injection Hfs as <-. pose proof (length_extract_rows root). lia.
Qed.

(** *** Telling the logged reasons apart *)

Lemma log_line_inj (ts filename r1 r2 : string) :
  log_line ts filename r1 = log_line ts filename r2 -> r1 ++ nl = r2 ++ nl.
Proof.
  unfold log_line. intros H.
  repeat (apply string_app_inv_head in H). exact H.
Qed.

Lemma upcs_reason_not_rows (n k : Z) :
  reason_too_many_upcs n ++ nl <> reason_too_many_rows k ++ nl.
Proof. unfold reason_too_many_upcs, reason_too_many_rows. cbn. discriminate. Qed.

Lemma upcs_reason_not_handler (n : Z) (e : exn) :
  reason_too_many_upcs n ++ nl <> reason_of e ++ nl.
Proof.
  unfold reason_too_many_upcs.
  destruct e; cbn; discriminate.
Qed.

Lemma rows_reason_not_handler (k : Z) (e : exn) :
  reason_too_many_rows k ++ nl <> reason_of e ++ nl.
Proof.
  unfold reason_too_many_rows.
  destruct e; cbn; discriminate.
Qed.

Lemma logged_reason (w : World) (filename r1 r2 : string) (s s0 : State) :
  log_file s0 = log_file s ->
  log_file (after_log w filename r1 s0)
  = (log_file s ++ [log_line (clock w) filename r2])%list ->
  r1 ++ nl = r2 ++ nl.
Proof.
  intros Hs H. cbn [after_log log_file] in H. rewrite Hs in H.
  apply snoc_inj in H. now apply log_line_inj in H.
Qed.

(* ================================================================== *)
(** ** Sample documents *)

Lemma count_quiet (root : Element) (filepath : string) :
  count_upc_elements (quiet_world (WellFormed root)) filepath
                     default_max_upc_estimate
  = Some (if Z.of_nat (count_tag "upc" root) >? 1200000 then 1200001
          else Z.of_nat (count_tag "upc" root)).
Proof.
  unfold count_upc_elements, scan_file.
  rewrite (@iterparse_quiet _ filepath root eq_refl). cbn [fst snd].
  rewrite scan_events_char by (unfold default_max_upc_estimate; lia).
  rewrite upcs_in_end_events, Z.add_0_l.
  unfold default_max_upc_estimate.
  now destruct (Z.of_nat (count_tag "upc" root) >? 1200000).
Qed.

Lemma list_sum_map_repeat {A} (f : A -> nat) (a : A) (n : nat) :
  list_sum (map f (repeat a n)) = (n * f a)%nat.
Proof.
  induction n as [|n IH]; [reflexivity|].
  change (f a + list_sum (map f (repeat a n)) = f a + n * f a)%nat.
  now rewrite IH.
Qed.

Lemma count_tag_loose_upcs (n : nat) : count_tag "upc" (loose_upcs n) = n.
Proof.
  unfold loose_upcs. cbn [count_tag]. rewrite list_sum_map_repeat.
  change (count_tag "upc" (upc_elem "U")) with 1%nat.
  change (has_tag "upc" (Elem "catalog" [] None (repeat (upc_elem "U") n)))
    with false.
  cbv iota. lia.
Qed.

Lemma extract_rows_loose_upcs (n : nat) : extract_rows (loose_upcs n) = [].
Proof.
  unfold extract_rows, ET.findall_descendant, loose_upcs. cbn [children].
  now rewrite flat_map_repeat_nil.
Qed.

Lemma count_tag_catalog_of (n : nat) : count_tag "upc" (catalog_of n) = n.
Proof.
  unfold catalog_of. cbn [count_tag map list_sum fold_right].
  rewrite list_sum_map_repeat.
  change (count_tag "upc" (upc_elem "U")) with 1%nat.
  unfold has_tag. cbn [tag String.eqb Ascii.eqb Bool.eqb]. cbv iota. lia.
Qed.

Lemma length_extract_rows_catalog_of (n : nat) :
  List.length (extract_rows (catalog_of n)) = n.
Proof.
  unfold extract_rows, ET.findall_descendant, catalog_of.
  cbn [children flat_map ET.iter].
  rewrite flat_map_repeat_nil by reflexivity.
  change (has_tag "manufacturer"
            (Elem "product" [] None (repeat (upc_elem "U") n))) with false.
  match goal with
  | |- context [has_tag "manufacturer" ?e] =>
      change (has_tag "manufacturer" e) with true
  end.
  cbn [app flat_map].
  rewrite !app_nil_r.
  unfold rows_of_manufacturer, ET.findall. cbn [children filter].
  change (has_tag "product"
            (Elem "product" [] None (repeat (upc_elem "U") n))) with true.
  cbn [flat_map]. rewrite app_nil_r, length_rows_of_product.
  unfold ET.findall. cbn [children].
  rewrite filter_repeat_true by reflexivity. apply repeat_length.
Qed.

Lemma ET_parse_quiet (root : Element) (filepath : string) :
  ET_parse (quiet_world (WellFormed root)) filepath = Returned root.
Proof. reflexivity. Qed.



(* ================================================================== *)
(** ** The batch loop *)

Lemma parse_run_xlsx (w : World) (filepath : string) (s : State)
      (r : outcome (option DataFrame) * State) :
  parse_run w filepath s r -> xlsx (snd r) = xlsx s.
Proof. destruct 1; reflexivity. Qed.

Lemma parse_keeps_xlsx (w : World) (filepath : string) (s : State) :
  xlsx (snd (parse_contact_lens_xml w filepath s)) = xlsx s.
Proof. apply parse_run_xlsx with w filepath. apply parse_run_complete. Qed.

(** Without a table the loop body writes no spreadsheet. *)
Lemma process_file_no_table (cfg : Config) (w : World) (filename : string)
      (s : State) :
  (forall s0, fst (parse_contact_lens_xml
                     w (os_path.join (XML_INPUT_DIR cfg) filename) s0)
              = Returned None) ->
  xlsx (snd (process_file cfg w filename s)) = xlsx s.
Proof.
  intros Hnone. unfold process_file, bind at 1, print at 1.
  unfold bind at 1.
  specialize (Hnone (mkState (log_file s)
                             (stdout s ++ ["Processing: " ++ filename])
                             (parsed s) (xlsx s))).
  pose proof (parse_keeps_xlsx w (os_path.join (XML_INPUT_DIR cfg) filename)
                (mkState (log_file s)
                         (stdout s ++ ["Processing: " ++ filename])
                         (parsed s) (xlsx s))) as Hx.
  destruct (parse_contact_lens_xml _ _ _) as [o s1].
  cbn [fst snd] in Hnone, Hx. subst o. cbn [xlsx] in Hx.
  unfold print. cbn [snd xlsx]. exact Hx.
Qed.

(* ================================================================== *)
(** ** Pre-flight check *)

(** C1.  When the Size Estimator returns a count above 1,000,000 the Parser
    returns no table, the Skip Logger records the reason
    [Too many UPCs (~N > 1M limit)] (the specification's "too many leaf
    records") and [ET.parse] is never called; when the Estimator returns
    [None] the Parser runs its [try] block, calls [ET.parse], and whatever it
    logs is not the estimate's reason. *)
Theorem C1_preflight_estimate (w : World) (filepath : string) (s : State) :
  (forall n,
      count_upc_elements w filepath default_max_upc_estimate = Some n ->
      1000000 < n ->
      parse_contact_lens_xml w filepath s
      = (Returned None,
         after_log w (os_path.basename filepath) (reason_too_many_upcs n) s)
      /\ log_file (snd (parse_contact_lens_xml w filepath s))
         = (log_file s
            ++ [log_line (clock w) (os_path.basename filepath)
                  ("Too many UPCs (~" ++ format_commas n
                   ++ " > 1M limit)")%string])%list
      /\ parsed (snd (parse_contact_lens_xml w filepath s)) = parsed s)
  /\
  (count_upc_elements w filepath default_max_upc_estimate = None ->
   parse_contact_lens_xml w filepath s
   = try_except (parse_body w filepath (os_path.basename filepath))
                (parse_handlers w (os_path.basename filepath)) s
   /\ parsed (snd (parse_contact_lens_xml w filepath s))
      = (parsed s ++ [filepath])%list
   /\ forall n,
       log_file (snd (parse_contact_lens_xml w filepath s))
       <> (log_file s
           ++ [log_line (clock w) (os_path.basename filepath)
                 (reason_too_many_upcs n)])%list).
Proof.
  split.
  - intros n Hc Hn.
    rewrite (@parse_rejects_estimate w filepath s n Hc Hn).
    repeat split.
  - intros Hc.
    assert (Hp : preflight_passes w filepath)
      by (unfold preflight_passes; now rewrite Hc).
    split; [exact (@parse_proceeds w filepath s Hp)|].
    remember (parse_contact_lens_xml w filepath s) as r eqn:E.
    pose proof (parse_run_complete w filepath s) as H. rewrite <- E in H.
    destruct H as [n Hc' Hn|e _ He|root _ Hparse Hb Hr|root _ Hparse Hb Hr
                   |root _ Hparse Hb Hne Hr]; cbn [snd].
    + congruence.
    + split; [reflexivity|]. intros n H.
      apply logged_reason in H; [|reflexivity].
      symmetry in H. exact (@upcs_reason_not_handler _ _ H).
    + split; [reflexivity|]. intros n H. cbn [after_print after_parse log_file] in H.
      symmetry in H. exact (@list_neq_snoc _ _ _ H).
    + split; [reflexivity|]. intros n H.
      apply logged_reason in H; [|reflexivity].
      symmetry in H. exact (@upcs_reason_not_rows _ _ H).
    + split; [reflexivity|]. intros n H. cbn [after_parse log_file] in H.
      symmetry in H. exact (@list_neq_snoc _ _ _ H).
Qed.

Lemma C1_preflight_estimate_witness :
  (parse_contact_lens_xml
     (quiet_world (WellFormed (loose_upcs (Z.to_nat 1000001))))
     "in/big.xml" initial
   = (Returned None,
      after_log (quiet_world (WellFormed (loose_upcs (Z.to_nat 1000001))))
                (os_path.basename "in/big.xml")
                (reason_too_many_upcs 1000001) initial))
  /\ parsed (snd (parse_contact_lens_xml
                    (blind_world (WellFormed scenario_A)) "in/a.xml"
                    initial))
     = ["in/a.xml"].
Proof.
  split.
  - apply (proj1 (C1_preflight_estimate
                    (quiet_world
                       (WellFormed (loose_upcs (Z.to_nat 1000001))))
                    "in/big.xml" initial) 1000001).
    + rewrite count_quiet, count_tag_loose_upcs, Z2Nat.id by lia.
      reflexivity.
    + lia.
  - apply (proj2 (C1_preflight_estimate
                    (blind_world (WellFormed scenario_A)) "in/a.xml"
                    initial)).
    apply count_blind.
Defined.

(* ================================================================== *)
(** ** Exceptions *)

(** C3.  A call of the Parser always returns, with a table or with [None],
    and never raises.  Past the pre-flight check, a [ParseError] of the full
    parse is logged as [XML parse error: <detail>], a [MemoryError] as
    [MemoryError - file too large for ElementTree/pandas], and any other
    exception as [Unexpected error: <kind> - <detail>]; each time the result
    is [None].  (The Skip Logger itself is total here: a failing log write
    is outside the Parser's handlers.) *)
Theorem C3_never_raises (w : World) (filepath : string) (s : State) :
  (exists r s', parse_contact_lens_xml w filepath s = (Returned r, s'))
  /\
  (preflight_passes w filepath ->
   (forall detail,
       full_parse_raises_exn w filepath (ParseError detail) ->
       parse_contact_lens_xml w filepath s
       = (Returned None,
          after_log w (os_path.basename filepath)
                    ("XML parse error: " ++ detail)
                    (after_parse filepath s)))
   /\ (full_parse_raises_exn w filepath MemoryError ->
       parse_contact_lens_xml w filepath s
       = (Returned None,
          after_log w (os_path.basename filepath)
                    "MemoryError - file too large for ElementTree/pandas"
                    (after_parse filepath s)))
   /\ (forall kind detail,
          full_parse_raises_exn w filepath (OtherException kind detail) ->
          parse_contact_lens_xml w filepath s
          = (Returned None,
             after_log w (os_path.basename filepath)
                       ("Unexpected error: " ++ kind ++ " - " ++ detail)
                       (after_parse filepath s)))).
Proof.
  split.
  - destruct (parse_run_complete w filepath s); eauto.
  - intros Hp.
    assert (G : forall e, full_parse_raises_exn w filepath e ->
                parse_contact_lens_xml w filepath s
                = (Returned None,
                   after_log w (os_path.basename filepath) (reason_of e)
                             (after_parse filepath s))).
    { intros e He. rewrite (@parse_proceeds w filepath s Hp).
      destruct He as [He|(root & Hparse & Hb)].
      - exact (@full_parse_raises w filepath _ s e He).
      - exact (@full_parse_build_raises w filepath _ s root e Hparse Hb). }
    split; [intros detail H; exact (G _ H)|].
    split; [intros H; exact (G _ H)|intros kind detail H; exact (G _ H)].
Qed.

Lemma C3_never_raises_witness :
  parse_contact_lens_xml
    (quiet_world (Malformed [] "mismatched tag: line 3, column 2"))
    "in/bad.xml" initial
  = (Returned None,
     after_log (quiet_world (Malformed [] "mismatched tag: line 3, column 2"))
               (os_path.basename "in/bad.xml")
               ("XML parse error: " ++ "mismatched tag: line 3, column 2")
               (after_parse "in/bad.xml" initial)).
Proof.
  refine (proj1 (proj2 (C3_never_raises
                          (quiet_world
                             (Malformed [] "mismatched tag: line 3, column 2"))
                          "in/bad.xml" initial) _)
                "mismatched tag: line 3, column 2" _).
  - unfold preflight_passes. vm_compute. exact I.
  - left. reflexivity.
Defined.

(* ================================================================== *)
(** ** Determinism *)

(** C10.  The Parser's result depends on the document and on nothing the
    Parser leaves behind: run again on the same world, at another time and
    from the state the first run left, it returns the same table, with the
    same rows in the same order (or [None] again). *)
Theorem C10_deterministic (w : World) (filepath : string) :
  (forall (s s' : State) (c : string),
      fst (parse_contact_lens_xml (with_clock w c) filepath s')
      = fst (parse_contact_lens_xml w filepath s))
  /\
  (forall (s : State) (c : string),
      fst (parse_contact_lens_xml
             (with_clock w c) filepath
             (snd (parse_contact_lens_xml w filepath s)))
      = fst (parse_contact_lens_xml w filepath s)).
Proof.
  assert (G : forall (s s' : State) (c : string),
             fst (parse_contact_lens_xml (with_clock w c) filepath s')
             = fst (parse_contact_lens_xml w filepath s)).
  { intros s s' c.
    remember (parse_contact_lens_xml w filepath s) as r eqn:E.
    pose proof (parse_run_complete w filepath s) as H. rewrite <- E in H.
    destruct H as [n Hc Hn|e Hp He|root Hp Hparse Hb Hr|root Hp Hparse Hb Hr
                   |root Hp Hparse Hb Hne Hr]; cbn [fst].
    - now rewrite (@parse_rejects_estimate (with_clock w c) filepath s' n
                                           Hc Hn).
    - rewrite (@parse_proceeds (with_clock w c) filepath s' Hp).
      destruct He as [He|(root & Hparse & Hb)].
      + now rewrite (@full_parse_raises (with_clock w c) filepath _ s' e He).
      + now rewrite (@full_parse_build_raises (with_clock w c) filepath _ s'
                                              root e Hparse Hb).
    - rewrite (@parse_proceeds (with_clock w c) filepath s' Hp).
      now rewrite (@full_parse_empty (with_clock w c) filepath _ s' root
                                     Hparse Hb Hr).
    - rewrite (@parse_proceeds (with_clock w c) filepath s' Hp).
      assert (Hne : extract_rows root <> []).
      { intros H0. rewrite H0 in Hr. cbn in Hr. lia. }
      rewrite (@full_parse_rows (with_clock w c) filepath _ s' root
                                Hparse Hb Hne).
      destruct (_ >? 1048576) eqn:E'; [reflexivity|lia].
    - rewrite (@parse_proceeds (with_clock w c) filepath s' Hp).
      rewrite (@full_parse_rows (with_clock w c) filepath _ s' root
                                Hparse Hb Hne).
      destruct (_ >? 1048576) eqn:E'; [lia|reflexivity]. }
  split; [exact G|]. intros s c. apply G.
Qed.

(* ================================================================== *)
(** ** Size Estimator *)

(** An early exit has read a prefix of the scan and nothing after it. *)
Lemma scan_early_prefix (mx : Z) (fin : option exn) (evs : list Element) :
  forall c n,
    scan_events mx c evs fin = EarlyExit n ->
    exists pre post,
      evs = (pre ++ post)%list /\ n = c + upcs_in pre
      /\ forall post' fin', scan_events mx c (pre ++ post')%list fin'
                            = EarlyExit n.
Proof.
  induction evs as [|e evs IH]; intros c n H.
  - cbn in H. destruct fin; discriminate.
  - cbn [scan_events] in H.
    destruct (tag e =? "upc")%string eqn:Et.
    + destruct (c + 1 >? mx) eqn:Hgt.
      * injection H as <-. exists [e], evs. repeat split.
        -- rewrite upcs_in_cons, Et. unfold upcs_in. cbn. lia.
        -- intros post' fin'. cbn [app scan_events]. now rewrite Et, Hgt.
      * destruct (IH _ _ H) as (pre & post & -> & -> & Hpre).
        exists (e :: pre), post. repeat split.
        -- rewrite upcs_in_cons, Et. lia.
        -- intros post' fin'. cbn [app scan_events]. rewrite Et, Hgt.
           apply Hpre.
    + destruct (IH _ _ H) as (pre & post & -> & -> & Hpre).
      exists (e :: pre), post. repeat split.
      * rewrite upcs_in_cons, Et. lia.
      * intros post' fin'. cbn [app scan_events]. rewrite Et. apply Hpre.
Qed.

Lemma scan_quiet (root : Element) (filepath : string) :
  scan_file (quiet_world (WellFormed root)) filepath
            default_max_upc_estimate
  = if Z.of_nat (count_tag "upc" root) >? 1200000 then EarlyExit 1200001
    else Completed (Z.of_nat (count_tag "upc" root)).
Proof.
  unfold scan_file.
  rewrite (@iterparse_quiet _ filepath root eq_refl). cbn [fst snd].
  rewrite scan_events_char by (unfold default_max_upc_estimate; lia).
  rewrite upcs_in_end_events, Z.add_0_l.
  reflexivity.
Qed.

(** C8.  The Size Estimator returns a non-negative count or [None].  When
    the scan runs to its end the count is the number of [<upc>] elements of
    the document, which is then well-formed; when the running count passes
    the threshold the count so far is returned at once, whatever follows in
    the document (for a threshold that is not negative this is the threshold
    plus one); when the scan fails before that, the result is [None].  The
    last part gives the result from what the scan hands out. *)
Theorem C8_size_estimator (w : World) (filepath : string) (mx : Z) :
  (forall n, count_upc_elements w filepath mx = Some n -> 0 <= n)
  /\
  (forall n, scan_file w filepath mx = Completed n ->
     count_upc_elements w filepath mx = Some n
     /\ exists root, fs w filepath = WellFormed root
                     /\ n = Z.of_nat (count_tag "upc" root))
  /\
  (forall n, scan_file w filepath mx = EarlyExit n ->
     count_upc_elements w filepath mx = Some n
     /\ mx < n /\ (0 <= mx -> n = mx + 1)
     /\ exists pre post,
         fst (ET_iterparse w filepath) = (pre ++ post)%list
         /\ n = upcs_in pre
         /\ forall post' fin',
             scan_events mx 0 (pre ++ post')%list fin' = EarlyExit n)
  /\
  (forall e, scan_file w filepath mx = Failed e ->
     count_upc_elements w filepath mx = None
     /\ snd (ET_iterparse w filepath) = Some e)
  /\
  (0 <= mx ->
   count_upc_elements w filepath mx
   = if upcs_in (fst (ET_iterparse w filepath)) >? mx then Some (mx + 1)
     else match snd (ET_iterparse w filepath) with
          | None => Some (upcs_in (fst (ET_iterparse w filepath)))
          | Some _ => None
          end).
Proof.
  pose proof (scan_events_bounds mx (snd (ET_iterparse w filepath))
                                 (fst (ET_iterparse w filepath)) 0) as B.
  unfold count_upc_elements, scan_file in *.
  pose proof (upcs_in_nonneg (fst (ET_iterparse w filepath))) as Hnn.
  split; [|split; [|split; [|split]]].
  - intros n H. destruct (scan_events mx 0 _ _); [| |discriminate];
      injection H as ->; lia.
  - intros n H. rewrite H in B |- *. split; [reflexivity|].
    destruct B as [Hn Hfin].
    destruct (iterparse_completed _ _ Hfin) as (root & Hfs & Hev).
    exists root. split; [exact Hfs|].
    rewrite Hn, Hev, upcs_in_end_events. lia.
  - intros n H. split; [now rewrite H|].
    split; [rewrite H in B; lia|]. split.
    + intros Hmx. rewrite scan_events_char in H by exact Hmx.
      destruct (_ >? mx); [now injection H|].
      destruct (snd (ET_iterparse w filepath)); discriminate.
    + destruct (scan_early_prefix _ _ _ _ H) as (pre & post & Hev & Hn & Hp).
      exists pre, post. split; [exact Hev|]. split; [lia|exact Hp].
  - intros e H. rewrite H in B |- *. split; [reflexivity|exact B].
  - intros Hmx. rewrite scan_events_char by exact Hmx. rewrite Z.add_0_l.
    destruct (_ >? mx); [reflexivity|].
    destruct (snd (ET_iterparse w filepath)); reflexivity.
Qed.

Lemma C8_size_estimator_witness :
  count_upc_elements (quiet_world (WellFormed scenario_A)) "in/a.xml"
                     default_max_upc_estimate = Some 2
  /\ count_upc_elements (quiet_world (WellFormed scenario_A)) "in/a.xml" 1
     = Some 2
  /\ count_upc_elements (quiet_world (Malformed [upc_elem "U1"] "no element found"))
                        "in/a.xml" 1 = None.
Proof.
  split; [|split].
  - apply (proj1 (proj2 (C8_size_estimator
                           (quiet_world (WellFormed scenario_A))
                           "in/a.xml" default_max_upc_estimate)) 2).
    reflexivity.
  - apply (proj1 (proj2 (proj2 (C8_size_estimator
                                  (quiet_world (WellFormed scenario_A))
                                  "in/a.xml" 1))) 2).
    reflexivity.
  - apply (proj1 (proj2 (proj2 (proj2
             (C8_size_estimator
                (quiet_world (Malformed [upc_elem "U1"] "no element found"))
                "in/a.xml" 1)))) (ParseError "no element found")).
    reflexivity.
Defined.

(** C9.  An early exit of the Size Estimator at the default threshold
    returns 1,200,001, which is above 1,000,000: the Parser then rejects the
    document before the full parse. *)
Theorem C9_early_exit_rejected (w : World) (filepath : string) (s : State)
        (n : Z) :
  scan_file w filepath default_max_upc_estimate = EarlyExit n ->
  n = 1200001 /\ 1000000 < n
  /\ parse_contact_lens_xml w filepath s
     = (Returned None,
        after_log w (os_path.basename filepath)
                  (reason_too_many_upcs 1200001) s)
  /\ parsed (snd (parse_contact_lens_xml w filepath s)) = parsed s.
Proof.
  intros H.
  assert (Hn : n = 1200001).
  { unfold scan_file in H.
    rewrite scan_events_char in H
      by (unfold default_max_upc_estimate; lia).
    unfold default_max_upc_estimate in H.
    destruct (_ >? 1200000); [now injection H|].
    destruct (snd (ET_iterparse w filepath)); discriminate. }
  subst n.
  assert (Hc : count_upc_elements w filepath default_max_upc_estimate
               = Some 1200001)
    by (unfold count_upc_elements; now rewrite H).
  rewrite (@parse_rejects_estimate w filepath s 1200001 Hc) by lia.
  split; [reflexivity|]. split; [lia|]. split; reflexivity.
Qed.

Lemma C9_early_exit_rejected_witness :
  parse_contact_lens_xml
    (quiet_world (WellFormed (loose_upcs (Z.to_nat 1200001))))
    "in/huge.xml" initial
  = (Returned None,
     after_log (quiet_world (WellFormed (loose_upcs (Z.to_nat 1200001))))
               (os_path.basename "in/huge.xml")
               (reason_too_many_upcs 1200001) initial).
Proof.
  apply (C9_early_exit_rejected
           (quiet_world (WellFormed (loose_upcs (Z.to_nat 1200001))))
           "in/huge.xml" initial (n := 1200001)).
  rewrite scan_quiet, count_tag_loose_upcs, Z2Nat.id by lia.
  reflexivity.
Defined.

(* ================================================================== *)
(** ** The output table *)

Lemma flat_row_sources (m p u : Element) :
  flat_row m p u
  = map (fun cs => (fst cs, read (m, p, u) (snd cs))) field_sources.
Proof. reflexivity. Qed.

Lemma dict_get_lookup (d : dict) (k default : string) :
  dict_get d k default
  = match dict_lookup d k with Some v => v | None => default end.
Proof.
  induction d as [|[k' v] d IH]; [reflexivity|].
  cbn [dict_get dict_lookup]. now destruct (k' =? k)%string.
Qed.

Lemma absent_read (mpu : Element * Element * Element) (src : source) :
  absent mpu src = true -> read mpu src = "".
Proof.
  destruct src as [l t|l k]; cbn [absent read].
  - unfold ET.findtext. now destruct (ET.findall (element_of l mpu) t).
  - unfold ET.get. rewrite dict_get_lookup.
    now destruct (dict_lookup (attrib (element_of l mpu)) k).
Qed.

Lemma cell_field (m p u : Element) (col : string) (src : source) :
  In (col, src) field_sources ->
  pd.cell column_order (cells_of_row (flat_row m p u)) col
  = Some (read (m, p, u) src).
Proof.
  unfold field_sources. intros H.
  repeat (destruct H as [H|H]; [injection H as <- <-; reflexivity|]).
  destruct H.
Qed.

Lemma cells_of_flat_row_shape (m p u : Element) :
  List.length (cells_of_row (flat_row m p u)) = 20%nat
  /\ Forall (fun cell => exists v, cell = Some v)
            (cells_of_row (flat_row m p u)).
Proof.
  split; [reflexivity|].
  unfold cells_of_row. apply Forall_map, Forall_forall. eauto.
Qed.

(** A table is returned only past the pre-flight check, from a parsed
    document with between 1 and 1,048,576 rows. *)
Lemma returned_table_inv (w : World) (filepath : string) (s : State)
      (df : DataFrame) :
  fst (parse_contact_lens_xml w filepath s) = Returned (Some df) ->
  exists root,
    preflight_passes w filepath /\ ET_parse w filepath = Returned root
    /\ build_fault w = None
    /\ 0 < Z.of_nat (List.length (extract_rows root)) <= 1048576
    /\ df = table_of (extract_rows root).
Proof.
  remember (parse_contact_lens_xml w filepath s) as r eqn:E.
  pose proof (parse_run_complete w filepath s) as H. rewrite <- E in H.
  destruct H as [n Hc Hn|e _ He|root _ Hparse Hb Hr|root Hp Hparse Hb Hr
                 |root Hp Hparse Hb Hne Hr]; cbn [fst]; try discriminate.
  intros [= <-]. exists root. repeat split; try assumption.
  destruct (extract_rows root); [now elim Hne|cbn; lia].
Qed.

(** C2.  For a document that passes the pre-flight check, parses and yields
    R rows with 0 < R <= 1,048,576, the Parser returns a table with exactly
    R rows and the 20 canonical columns in canonical order.  Row by row its
    cells are the fields of the Flat Rows in traversal order; every cell
    holds a string, never the missing-value marker, and a cell whose source
    element or attribute is missing holds the empty string. *)
Theorem C2_output_table (w : World) (filepath : string) (s : State)
        (root : Element) :
  preflight_passes w filepath ->
  ET_parse w filepath = Returned root ->
  build_fault w = None ->
  0 < Z.of_nat (List.length (extract_rows root)) <= 1048576 ->
  exists df,
    parse_contact_lens_xml w filepath s
    = (Returned (Some df), after_parse filepath s)
    /\ columns df = column_order
    /\ List.length (columns df) = 20%nat
    /\ List.length (data df) = List.length (extract_rows root)
    /\ data df
       = map (fun en => cells_of_row (row_of_entry en)) (leaf_entries root)
    /\ Forall (fun row => List.length row = 20%nat
                          /\ Forall (fun cell => exists v, cell = Some v) row)
              (data df)
    /\ forall en col src,
        In en (leaf_entries root) -> In (col, src) field_sources ->
        absent (snd en) src = true ->
        pd.cell (columns df) (cells_of_row (row_of_entry en)) col = Some "".
Proof.
  intros Hp Hparse Hb [Hpos Hle].
  assert (Hne : extract_rows root <> []).
  { intros H0. rewrite H0 in Hpos. cbn in Hpos. lia. }
  exists (table_of (extract_rows root)).
  split.
  { rewrite (@parse_proceeds w filepath s Hp).
    rewrite (@full_parse_rows w filepath _ s root Hparse Hb Hne).
    destruct (_ >? 1048576) eqn:E; [lia|reflexivity]. }
  unfold table_of. cbn [columns data].
  split; [reflexivity|]. split; [reflexivity|].
  split; [apply length_map|].
  split; [now rewrite extract_rows_entries, map_map|].
  split.
  - apply Forall_map. eapply Forall_impl; [|apply extract_rows_flat].
    intros r (m & p & u & ->). apply cells_of_flat_row_shape.
  - intros [pos [[m p] u]] col src _ Hsrc Habs.
    unfold row_of_entry. cbn [snd] in *.
    rewrite (@cell_field m p u col src Hsrc).
    now rewrite (@absent_read (m, p, u) src Habs).
Qed.

Lemma C2_output_table_witness :
  exists df,
    parse_contact_lens_xml (quiet_world (WellFormed scenario_A)) "in/a.xml"
                           initial
    = (Returned (Some df), after_parse "in/a.xml" initial)
    /\ columns df = column_order
    /\ List.length (data df) = 2%nat.
Proof.
  destruct (C2_output_table (quiet_world (WellFormed scenario_A)) "in/a.xml"
                            initial (root := scenario_A))
    as (df & Hrun & Hcols & _ & Hlen & _).
  - unfold preflight_passes. vm_compute. discriminate.
  - reflexivity.
  - reflexivity.
  - vm_compute. split; [reflexivity|discriminate].
  - exists df. split; [exact Hrun|]. split; [exact Hcols|exact Hlen].
Defined.

(* ================================================================== *)
(** ** One row per leaf record *)

(** C4 (amended).  The traversal emits exactly one Flat Row per [<upc>]
    that is a direct child of a [<product>] that is a direct child of a
    [<manufacturer>] lying at any depth strictly below the root: the rows
    are the Flat Rows of the leaf records' positions, each position once, in
    traversal order (manufacturers in document order, then products, then
    leaf records).  [Product_Mode] is read from the product's [mode]
    attribute, the other manufacturer and product fields from child
    elements.  A document whose root holds one manufacturer (code M1) with
    one product (code P1, mode A) and two leaf records (U1, U2) yields
    exactly two rows that differ only in [UPC_ID]. *)
Theorem C4_one_row_per_leaf_record :
  (forall root : Element,
      exists entries : list entry,
        (forall pos m p u,
            In (pos, (m, p, u)) entries <-> leaf_record_at root pos m p u)
        /\ StronglySorted pos_lt (map fst entries)
        /\ NoDup (map fst entries)
        /\ extract_rows root = map row_of_entry entries)
  /\
  (forall m p u,
      flat_row m p u
      = map (fun cs => (fst cs, read (m, p, u) (snd cs))) field_sources)
  /\
  (forall root m p u1 u2,
      ET.findall_descendant root "manufacturer" = [m] ->
      ET.findall m "product" = [p] ->
      ET.findall p "upc" = [u1; u2] ->
      extract_rows root = [flat_row m p u1; flat_row m p u2])
  /\
  parse_contact_lens_xml (quiet_world (WellFormed scenario_A)) "in/a.xml"
                         initial
  = (Returned (Some (mkDataFrame column_order
                                 [cells_M1_P1 "U1"; cells_M1_P1 "U2"])),
     after_parse "in/a.xml" initial).
Proof.
  split; [|split; [|split]].
  - intros root. exists (leaf_entries root).
    split; [intros; apply leaf_entries_In|].
    split; [apply leaf_entries_sorted|].
    split; [|apply extract_rows_entries].
    apply sorted_NoDup with (R := pos_lt);
      [apply pos_lt_irrefl|apply leaf_entries_sorted].
  - intros m p u. apply flat_row_sources.
  - intros root m p u1 u2 Hm Hp Hu.
    unfold extract_rows. rewrite Hm. cbn [flat_map].
    unfold rows_of_manufacturer. rewrite Hp. cbn [flat_map].
    unfold rows_of_product. rewrite Hu. reflexivity.
  - vm_compute. reflexivity.
Qed.

Lemma C4_one_row_per_leaf_record_witness :
  extract_rows scenario_A
  = [flat_row manufacturer_M1 product_P1 (upc_elem "U1");
     flat_row manufacturer_M1 product_P1 (upc_elem "U2")].
Proof.
  apply (proj1 (proj2 (proj2 C4_one_row_per_leaf_record))); reflexivity.
Defined.

(** C4 as first stated fails for a manufacturer that is the root of the
    document: its leaf records yield no row, so the rows are not one per
    leaf record with the manufacturer at any depth. *)
Lemma C4_counterexample :
  leaf_record_any_depth manufacturer_M1 (mkPos [] 1 1)
                        manufacturer_M1 product_P1 (upc_elem "U1")
  /\ extract_rows manufacturer_M1 = []
  /\ parse_contact_lens_xml (quiet_world (WellFormed manufacturer_M1))
                            "in/a.xml" initial
     = (Returned None,
        after_print "  No <upc> elements found in a.xml"
                    (after_parse "in/a.xml" initial))
  /\ ~ (exists entries : list entry,
          (forall pos m p u,
              In (pos, (m, p, u)) entries
              <-> leaf_record_any_depth manufacturer_M1 pos m p u)
          /\ extract_rows manufacturer_M1 = map row_of_entry entries).
Proof.
  assert (Hleaf : leaf_record_any_depth manufacturer_M1 (mkPos [] 1 1)
                    manufacturer_M1 product_P1 (upc_elem "U1"))
    by (repeat split).
  split; [exact Hleaf|]. split; [reflexivity|].
  split; [vm_compute; reflexivity|].
  intros (entries & Hin & Hrows).
  change (extract_rows manufacturer_M1) with (@nil dict) in Hrows.
  symmetry in Hrows. apply map_eq_nil in Hrows. subst entries.
  apply Hin in Hleaf. destruct Hleaf.
Qed.

(* ================================================================== *)
(** ** Row ceiling *)

(** The same root is meant when [ET.parse] returns one. *)
Lemma ET_parse_same_root (w : World) (filepath : string)
      (root root' : Element) :
  fs w filepath = WellFormed root ->
  ET_parse w filepath = Returned root' -> root' = root.
Proof.
  intros Hfs Hparse. apply ET_parse_returned in Hparse.
  rewrite Hfs in Hparse. now injection Hparse.
Qed.




(* ================================================================== *)
(** ** Estimate against rows *)

(** C6 (amended).  When the Size Estimator returns a count n without an
    early exit (n <= 1,200,000), the full parse of the same document yields
    at most n rows.  So after an estimate n <= 1,000,000 the Parser never
    logs the too-many-rows reason: when it does, the Estimator had returned
    [None]. *)
Theorem C6_estimate_bounds_rows (w : World) (filepath : string) :
  (forall n root,
      count_upc_elements w filepath default_max_upc_estimate = Some n ->
      n <= 1200000 ->
      ET_parse w filepath = Returned root ->
      Z.of_nat (List.length (extract_rows root)) <= n)
  /\
  (forall n s R,
      count_upc_elements w filepath default_max_upc_estimate = Some n ->
      n <= 1000000 ->
      log_file (snd (parse_contact_lens_xml w filepath s))
      <> (log_file s
          ++ [log_line (clock w) (os_path.basename filepath)
                (reason_too_many_rows R)])%list)
  /\
  (forall s R,
      log_file (snd (parse_contact_lens_xml w filepath s))
      = (log_file s
         ++ [log_line (clock w) (os_path.basename filepath)
               (reason_too_many_rows R)])%list ->
      count_upc_elements w filepath default_max_upc_estimate = None).
Proof.
  assert (G : forall s R,
             log_file (snd (parse_contact_lens_xml w filepath s))
             = (log_file s
                ++ [log_line (clock w) (os_path.basename filepath)
                      (reason_too_many_rows R)])%list ->
             count_upc_elements w filepath default_max_upc_estimate = None).
  { intros s R.
    remember (parse_contact_lens_xml w filepath s) as r eqn:E.
    pose proof (parse_run_complete w filepath s) as H. rewrite <- E in H.
    destruct H as [n Hc Hn|e _ He|root _ Hparse Hb Hr|root Hp Hparse Hb Hr
                   |root _ Hparse Hb Hne Hr]; cbn [snd]; intros Hlog.
    - apply logged_reason in Hlog; [|reflexivity].
      elim (@upcs_reason_not_rows _ _ Hlog).
    - apply logged_reason in Hlog; [|reflexivity].
      symmetry in Hlog. elim (@rows_reason_not_handler _ _ Hlog).
    - cbn [after_print after_parse log_file] in Hlog.
      symmetry in Hlog. elim (@list_neq_snoc _ _ _ Hlog).
    - unfold preflight_passes in Hp.
      destruct (count_upc_elements w filepath default_max_upc_estimate)
        as [n|] eqn:Hc; [|reflexivity].
      assert (Z.of_nat (List.length (extract_rows root)) <= n).
      { apply (@rows_le_count w filepath n root Hc); [|exact Hparse].
        unfold default_max_upc_estimate. lia. }
      lia.
    - cbn [after_parse log_file] in Hlog.
      symmetry in Hlog. elim (@list_neq_snoc _ _ _ Hlog). }
  split; [|split; [|exact G]].
  - intros n root Hc Hn Hparse.
    apply (@rows_le_count w filepath n root Hc); [|exact Hparse].
    unfold default_max_upc_estimate. lia.
  - intros n s R Hc Hn Hlog. apply G in Hlog. congruence.
Qed.

Lemma C6_estimate_bounds_rows_witness :
  Z.of_nat (List.length (extract_rows scenario_A)) <= 2.
Proof.
  apply (proj1 (C6_estimate_bounds_rows
                  (quiet_world (WellFormed scenario_A)) "in/a.xml")).
  - reflexivity.
  - lia.
  - reflexivity.
Defined.

(** C6 as first stated fails at an early exit: 1,200,002 leaf records are
    estimated at 1,200,001 and would give 1,200,002 rows. *)
Lemma C6_counterexample :
  count_upc_elements
    (quiet_world (WellFormed (catalog_of (Z.to_nat 1200002))))
    "in/huge.xml" default_max_upc_estimate = Some 1200001
  /\ ET_parse (quiet_world (WellFormed (catalog_of (Z.to_nat 1200002))))
              "in/huge.xml"
     = Returned (catalog_of (Z.to_nat 1200002))
  /\ Z.of_nat (List.length (extract_rows (catalog_of (Z.to_nat 1200002))))
     = 1200002
  /\ ~ (forall n root,
          count_upc_elements
            (quiet_world (WellFormed (catalog_of (Z.to_nat 1200002))))
            "in/huge.xml" default_max_upc_estimate = Some n ->
          ET_parse (quiet_world (WellFormed (catalog_of (Z.to_nat 1200002))))
                   "in/huge.xml" = Returned root ->
          Z.of_nat (List.length (extract_rows root)) <= n).
Proof.
  assert (Hc : count_upc_elements
                 (quiet_world (WellFormed (catalog_of (Z.to_nat 1200002))))
                 "in/huge.xml" default_max_upc_estimate = Some 1200001).
  { rewrite count_quiet, count_tag_catalog_of, Z2Nat.id by lia.
    reflexivity. }
  assert (Hlen : Z.of_nat (List.length
                             (extract_rows (catalog_of (Z.to_nat 1200002))))
                 = 1200002)
    by (rewrite length_extract_rows_catalog_of; lia).
  split; [exact Hc|]. split; [apply ET_parse_quiet|]. split; [exact Hlen|].
  intros H.
  specialize (H 1200001 (catalog_of (Z.to_nat 1200002)) Hc
                (ET_parse_quiet _ _)).
  rewrite Hlen in H. lia.
Qed.

(* ================================================================== *)
(** ** Empty result *)

(** C7 (amended).  A well-formed document with zero extractable leaf records
    never gives a table, and the batch loop writes no spreadsheet for it.
    When it passes the pre-flight check and its full parse completes, the
    Parser prints [No <upc> elements found in <filename>] and leaves the log
    file as it was. *)
Theorem C7_empty_result (w : World) (filepath : string) (root : Element) :
  fs w filepath = WellFormed root ->
  extract_rows root = [] ->
  (forall s, fst (parse_contact_lens_xml w filepath s) = Returned None)
  /\
  (forall cfg filename s0,
      filepath = os_path.join (XML_INPUT_DIR cfg) filename ->
      xlsx (snd (process_file cfg w filename s0)) = xlsx s0)
  /\
  (preflight_passes w filepath ->
   ET_parse w filepath = Returned root ->
   build_fault w = None ->
   forall s,
     parse_contact_lens_xml w filepath s
     = (Returned None,
        after_print ("  No <upc> elements found in "
                     ++ os_path.basename filepath)
                    (after_parse filepath s))
     /\ log_file (snd (parse_contact_lens_xml w filepath s)) = log_file s
     /\ stdout (snd (parse_contact_lens_xml w filepath s))
        = (stdout s
           ++ [("  No <upc> elements found in "
                ++ os_path.basename filepath)%string])%list).
Proof.
  intros Hfs Hr.
  assert (G : forall s,
             fst (parse_contact_lens_xml w filepath s) = Returned None).
  { intros s.
    remember (parse_contact_lens_xml w filepath s) as r eqn:E.
    pose proof (parse_run_complete w filepath s) as H. rewrite <- E in H.
    destruct H as [n Hc Hn|e _ He|root' _ Hparse Hb Hr'|root' _ Hparse Hb Hr'
                   |root' _ Hparse Hb Hne' Hr']; cbn [fst];
      try reflexivity.
    rewrite (ET_parse_same_root _ _ Hfs Hparse) in Hne'. contradiction. }
  split; [exact G|]. split.
  - intros cfg filename s0 ->. apply process_file_no_table.
    intros s1. apply G.
  - intros Hp Hparse Hb s.
    assert (Hrun : parse_contact_lens_xml w filepath s
                   = (Returned None,
                      after_print
                        (no_upc_notice (os_path.basename filepath))
                        (after_parse filepath s))).
    { rewrite (@parse_proceeds w filepath s Hp).
      exact (@full_parse_empty w filepath _ s root Hparse Hb Hr). }
    split; [exact Hrun|]. split; now rewrite Hrun.
Qed.

Lemma C7_empty_result_witness :
  fst (parse_contact_lens_xml
         (quiet_world (WellFormed (loose_upcs 2))) "in/a.xml" initial)
  = Returned None
  /\ log_file (snd (parse_contact_lens_xml
                      (quiet_world (WellFormed (loose_upcs 2))) "in/a.xml"
                      initial))
     = log_file initial.
Proof.
  pose proof (C7_empty_result (quiet_world (WellFormed (loose_upcs 2)))
                              "in/a.xml" eq_refl eq_refl)
    as (Hall & _ & Hquiet).
  split; [apply Hall|].
  apply Hquiet.
  - unfold preflight_passes. vm_compute. discriminate.
  - reflexivity.
  - reflexivity.
Defined.

(** C7 as first stated fails for a document with no extractable leaf record
    and more than 1,000,000 [<upc>] elements elsewhere: the Skip Logger
    records the pre-flight rejection. *)
Lemma C7_counterexample :
  extract_rows (loose_upcs (Z.to_nat 1000001)) = []
  /\ log_file (snd (parse_contact_lens_xml
                      (quiet_world
                         (WellFormed (loose_upcs (Z.to_nat 1000001))))
                      "in/big.xml" initial))
     = [log_line "2026-01-01 00:00:00" "big.xml"
                 "Too many UPCs (~1,000,001 > 1M limit)"]
  /\ ~ (extract_rows (loose_upcs (Z.to_nat 1000001)) = [] ->
        log_file (snd (parse_contact_lens_xml
                         (quiet_world
                            (WellFormed (loose_upcs (Z.to_nat 1000001))))
                         "in/big.xml" initial))
        = log_file initial).
Proof.
  assert (H : parse_contact_lens_xml
                (quiet_world (WellFormed (loose_upcs (Z.to_nat 1000001))))
                "in/big.xml" initial
              = (Returned None,
                 after_log
                   (quiet_world
                      (WellFormed (loose_upcs (Z.to_nat 1000001))))
                   (os_path.basename "in/big.xml")
                   (reason_too_many_upcs 1000001) initial)).
  { apply parse_rejects_estimate; [|lia].
    rewrite count_quiet, count_tag_loose_upcs, Z2Nat.id by lia.
    reflexivity. }
  split; [apply extract_rows_loose_upcs|].
  rewrite H. cbn [snd after_log log_file initial app clock quiet_world].
  split; [reflexivity|].
  intros Hno. specialize (Hno (extract_rows_loose_upcs _)). discriminate.
Qed.

(* ================================================================== *)
(** ** More about the Parser *)

(** What one call of the Parser adds to the log: nothing with a table, at
    most one line without, in the name of the file. *)
Lemma parse_log_growth (w : World) (filepath : string) (s : State) :
  exists new_log,
    log_file (snd (parse_contact_lens_xml w filepath s))
    = (log_file s ++ new_log)%list
    /\ (List.length new_log <= 1)%nat
    /\ (forall df,
           fst (parse_contact_lens_xml w filepath s) = Returned (Some df) ->
           new_log = [])
    /\ Forall (fun line =>
                 exists reason,
                   line = log_line (clock w) (os_path.basename filepath)
                                   reason)
              new_log.
Proof.
  remember (parse_contact_lens_xml w filepath s) as r eqn:E.
  pose proof (parse_run_complete w filepath s) as H. rewrite <- E in H.
  destruct H as [n Hc Hn|e _ He|root _ Hparse Hb Hr|root _ Hparse Hb Hr
                 |root _ Hparse Hb Hne Hr]; cbn [fst snd].
  - eexists [_]. split; [reflexivity|]. split; [auto|].
    split; [discriminate|]. constructor; [eauto|constructor].
  - eexists [_]. split; [reflexivity|]. split; [auto|].
    split; [discriminate|]. constructor; [eauto|constructor].
  - exists []. cbn [after_print after_parse log_file].
    rewrite app_nil_r. repeat split; auto.
  - eexists [_]. split; [reflexivity|]. split; [auto|].
    split; [discriminate|]. constructor; [eauto|constructor].
  - exists []. cbn [after_parse log_file]. rewrite app_nil_r.
    repeat split; auto.
Qed.

(** X1.  One call of the Parser ends in one of three ways, and the log file
    and the console stay in step: a table, with nothing logged or printed;
    [None] with one line appended to the log and the matching
    [SKIPPED & LOGGED] notice printed; or [None] with the log untouched and
    the [No <upc> elements found] notice printed.  Earlier log lines are
    never changed and no spreadsheet is written. *)
Theorem parse_outcomes (w : World) (filepath : string) (s : State) :
  xlsx (snd (parse_contact_lens_xml w filepath s)) = xlsx s
  /\
  ((exists df,
       fst (parse_contact_lens_xml w filepath s) = Returned (Some df)
       /\ log_file (snd (parse_contact_lens_xml w filepath s)) = log_file s
       /\ stdout (snd (parse_contact_lens_xml w filepath s)) = stdout s)
   \/
   (fst (parse_contact_lens_xml w filepath s) = Returned None
    /\ exists reason,
        log_file (snd (parse_contact_lens_xml w filepath s))
        = (log_file s
           ++ [log_line (clock w) (os_path.basename filepath) reason])%list
        /\ stdout (snd (parse_contact_lens_xml w filepath s))
           = (stdout s
              ++ [skipped_notice (os_path.basename filepath) reason])%list)
   \/
   (fst (parse_contact_lens_xml w filepath s) = Returned None
    /\ log_file (snd (parse_contact_lens_xml w filepath s)) = log_file s
    /\ stdout (snd (parse_contact_lens_xml w filepath s))
       = (stdout s ++ [no_upc_notice (os_path.basename filepath)])%list)).
Proof.
  split; [apply parse_keeps_xlsx|].
  remember (parse_contact_lens_xml w filepath s) as r eqn:E.
  pose proof (parse_run_complete w filepath s) as H. rewrite <- E in H.
  destruct H as [n Hc Hn|e _ He|root _ Hparse Hb Hr|root _ Hparse Hb Hr
                 |root _ Hparse Hb Hne Hr]; cbn [fst snd].
  - right; left. split; [reflexivity|].
    exists (reason_too_many_upcs n). split; reflexivity.
  - right; left. split; [reflexivity|].
    exists (reason_of e). split; reflexivity.
  - right; right. repeat split.
  - right; left. split; [reflexivity|]. eexists. split; reflexivity.
  - left. eexists. repeat split.
Qed.

(** X2.  When the Size Estimator returned a count, a table the Parser
    returns has at most that many rows, and at most 1,000,000: the ceiling
    of 1,048,576 rows is only met after a failed estimate. *)
Theorem table_within_estimate (w : World) (filepath : string) (s : State)
        (df : DataFrame) (n : Z) :
  count_upc_elements w filepath default_max_upc_estimate = Some n ->
  fst (parse_contact_lens_xml w filepath s) = Returned (Some df) ->
  pd.len df <= n /\ n <= 1000000.
Proof.
  intros Hc Hdf.
  destruct (@returned_table_inv w filepath s df Hdf)
    as (root & Hp & Hparse & _ & _ & ->).
  unfold preflight_passes in Hp. rewrite Hc in Hp.
  split; [|exact Hp]. rewrite len_table_of.
  apply (@rows_le_count w filepath n root Hc); [|exact Hparse].
  unfold default_max_upc_estimate. lia.
Qed.

Lemma table_within_estimate_witness :
  pd.len (table_of (extract_rows scenario_A)) <= 2 /\ 2 <= 1000000.
Proof.
  apply (@table_within_estimate (quiet_world (WellFormed scenario_A))
                                "in/a.xml" initial).
  - reflexivity.
  - vm_compute. reflexivity.
Defined.

Lemma upcs_in_repeat (id : string) (n : nat) :
  upcs_in (repeat (upc_elem id) n) = Z.of_nat n.
Proof.
  unfold upcs_in. rewrite filter_repeat_true by reflexivity.
  now rewrite repeat_length.
Qed.

(** X3.  A malformed document, scanned and parsed without other failures:
    when more than 1,200,000 [<upc>] elements end before the syntax error,
    the Size Estimator leaves early and the Parser logs the estimate's
    reason without ever meeting the error; otherwise the Estimator meets
    the error and returns [None], and the full parse logs
    [XML parse error: <detail>]. *)
Theorem malformed_document (w : World) (filepath : string) (s : State)
        (closed : list Element) (detail : string) :
  fs w filepath = Malformed closed detail ->
  iter_fault w = None -> parse_fault w = None ->
  (1200000 < upcs_in closed ->
   parse_contact_lens_xml w filepath s
   = (Returned None,
      after_log w (os_path.basename filepath)
                (reason_too_many_upcs 1200001) s))
  /\
  (upcs_in closed <= 1200000 ->
   count_upc_elements w filepath default_max_upc_estimate = None
   /\ parse_contact_lens_xml w filepath s
      = (Returned None,
         after_log w (os_path.basename filepath)
                   ("XML parse error: " ++ detail)
                   (after_parse filepath s))).
Proof.
  intros Hfs Hif Hpf.
  assert (Hstream : ET_iterparse w filepath
                    = (closed, Some (ParseError detail))).
  { unfold ET_iterparse. now rewrite Hfs, Hif. }
  assert (Hscan : scan_file w filepath default_max_upc_estimate
                  = if upcs_in closed >? 1200000 then EarlyExit 1200001
                    else Failed (ParseError detail)).
  { unfold scan_file. rewrite Hstream. cbn [fst snd].
    rewrite scan_events_char by (unfold default_max_upc_estimate; lia).
    now rewrite Z.add_0_l. }
  split; intros Hn.
  - apply parse_rejects_estimate; [|lia].
    unfold count_upc_elements. rewrite Hscan.
    destruct (upcs_in closed >? 1200000) eqn:E; [reflexivity|lia].
  - assert (Hc : count_upc_elements w filepath default_max_upc_estimate
                 = None).
    { unfold count_upc_elements. rewrite Hscan.
      destruct (upcs_in closed >? 1200000) eqn:E; [lia|reflexivity]. }
    split; [exact Hc|].
    assert (Hp : preflight_passes w filepath)
      by (unfold preflight_passes; now rewrite Hc).
    rewrite (@parse_proceeds w filepath s Hp).
    apply (@full_parse_raises w filepath _ s (ParseError detail)).
    unfold ET_parse. now rewrite Hpf, Hfs.
Qed.

Lemma malformed_document_witness :
  parse_contact_lens_xml
    (quiet_world
       (Malformed (repeat (upc_elem "U") (Z.to_nat 1200001))
                  "unclosed token: line 9, column 0"))
    "in/cut.xml" initial
  = (Returned None,
     after_log
       (quiet_world
          (Malformed (repeat (upc_elem "U") (Z.to_nat 1200001))
                     "unclosed token: line 9, column 0"))
       (os_path.basename "in/cut.xml")
       (reason_too_many_upcs 1200001) initial)
  /\ count_upc_elements
       (quiet_world
          (Malformed [upc_elem "U1"] "unclosed token: line 9, column 0"))
       "in/cut.xml" default_max_upc_estimate
     = None.
Proof.
  split.
  - refine (proj1 (@malformed_document
                     (quiet_world
                        (Malformed (repeat (upc_elem "U")
                                           (Z.to_nat 1200001))
                                   "unclosed token: line 9, column 0"))
                     "in/cut.xml" initial _ _ eq_refl eq_refl eq_refl) _).
    rewrite upcs_in_repeat. lia.
  - refine (proj1 (proj2 (@malformed_document
                            (quiet_world
                               (Malformed [upc_elem "U1"]
                                  "unclosed token: line 9, column 0"))
                            "in/cut.xml" initial _ _
                            eq_refl eq_refl eq_refl) _)).
    vm_compute. discriminate.
Defined.

(** X4.  A file that cannot be opened: the Size Estimator swallows the
    error and returns [None], so the document always reaches the full parse,
    whose error is logged as [Unexpected error: <kind> - <detail>]. *)
Theorem unreadable_file (w : World) (filepath : string) (s : State)
        (kind detail : string) :
  fs w filepath = Unreadable kind detail ->
  parse_fault w = None ->
  (forall mx, count_upc_elements w filepath mx = None)
  /\ parse_contact_lens_xml w filepath s
     = (Returned None,
        after_log w (os_path.basename filepath)
                  ("Unexpected error: " ++ kind ++ " - " ++ detail)
                  (after_parse filepath s)).
Proof.
  intros Hfs Hpf.
  assert (Hc : forall mx, count_upc_elements w filepath mx = None).
  { intros mx. unfold count_upc_elements, scan_file, ET_iterparse.
    rewrite Hfs. cbn [fst snd List.length].
    destruct (iter_fault w) as [[k e]|]; [|reflexivity].
    destruct (k <=? 0)%nat; cbn [fst snd]; [|reflexivity].
    now rewrite firstn_nil. }
  split; [exact Hc|].
  assert (Hp : preflight_passes w filepath)
    by (unfold preflight_passes; now rewrite Hc).
  rewrite (@parse_proceeds w filepath s Hp).
  apply (@full_parse_raises w filepath _ s (OtherException kind detail)).
  unfold ET_parse. now rewrite Hpf, Hfs.
Qed.

Lemma unreadable_file_witness :
  parse_contact_lens_xml
    (quiet_world (Unreadable "FileNotFoundError" "[Errno 2] No such file"))
    "in/gone.xml" initial
  = (Returned None,
     after_log
       (quiet_world (Unreadable "FileNotFoundError" "[Errno 2] No such file"))
       (os_path.basename "in/gone.xml")
       ("Unexpected error: " ++ "FileNotFoundError" ++ " - "
        ++ "[Errno 2] No such file")
       (after_parse "in/gone.xml" initial)).
Proof.
  apply (@unreadable_file
           (quiet_world
              (Unreadable "FileNotFoundError" "[Errno 2] No such file"))
           "in/gone.xml" initial); reflexivity.
Defined.

(* ================================================================== *)
(** ** Column selection *)

Lemma str_in_In (x : string) (l : list string) :
  str_in x l = true <-> In x l.
Proof.
  unfold str_in. rewrite existsb_exists. split.
  - intros (y & Hy & He). apply String.eqb_eq in He. now subst.
  - intros H. exists x. split; [exact H|apply String.eqb_refl].
Qed.

Lemma add_keys_In (c : string) (ks : list string) :
  forall acc, In c (pd.add_keys acc ks) <-> In c acc \/ In c ks.
Proof.
  induction ks as [|k ks IH]; intros acc; cbn [pd.add_keys].
  - cbn. tauto.
  - rewrite IH. destruct (str_in k acc) eqn:E.
    + apply str_in_In in E. cbn [In]. split; [tauto|].
      intros [H|[H|H]]; auto. subst. auto.
    + rewrite in_app_iff. cbn [In]. tauto.
Qed.

Lemma union_keys_In (c : string) (rows : list dict) :
  In c (pd.union_keys rows) <-> exists r, In r rows /\ In c (keys r).
Proof.
  unfold pd.union_keys.
  assert (G : forall acc,
             In c (fold_left (fun acc r => pd.add_keys acc (keys r)) rows acc)
             <-> In c acc \/ exists r, In r rows /\ In c (keys r)).
  { induction rows as [|r rows IH]; intros acc; cbn [fold_left].
    - split; [auto|]. intros [H|(r & [] & _)]. exact H.
    - rewrite IH, add_keys_In. split.
      + intros [[H|H]|(r' & Hr' & H)]; eauto.
        * right. exists r. split; [now left|exact H].
        * right. exists r'. split; [now right|exact H].
      + intros [H|(r' & [<-|Hr'] & H)]; eauto. }
  rewrite G. split; [|auto]. now intros [[]|H].
Qed.

Lemma str_in_union_keys (c : string) (rows : list dict) :
  str_in c (pd.union_keys rows)
  = existsb (fun r => str_in c (keys r)) rows.
Proof.
  apply eq_true_iff_eq.
  rewrite str_in_In, union_keys_In, existsb_exists.
  split; intros (r & Hr & H); exists r; split; auto; now apply str_in_In.
Qed.

Lemma forallb_filter {A} (f : A -> bool) (l : list A) :
  forallb f (filter f l) = true.
Proof.
  apply forallb_forall. intros a Ha. now apply filter_In in Ha.
Qed.

Lemma cell_of_map (f : string -> option string) (c : string)
      (cols : list string) :
  In c cols -> pd.cell cols (map f cols) c = f c.
Proof.
  unfold pd.cell. induction cols as [|k cols IH]; intros Hin; [destruct Hin|].
  cbn [pd.index_of map]. destruct (k =? c)%string eqn:E.
  - apply String.eqb_eq in E. now subst.
  - destruct Hin as [->|Hin]; [now rewrite String.eqb_refl in E|].
    specialize (IH Hin).
    destruct (pd.index_of c cols) as [i|]; cbn [option_map nth]; exact IH.
Qed.

(** X5.  Whatever keys the rows have, selecting the available columns never
    raises [KeyError]: the table keeps exactly the canonical columns that are
    a key of some row, in canonical order, every other key is dropped, and a
    cell holds the row's value for its column, or the missing-value marker
    where the row lacks the key. *)
Theorem column_selection (rows : list dict) :
  pd.getitem (pd.DataFrame_of rows)
             (filter (fun col => str_in col (columns (pd.DataFrame_of rows)))
                     column_order)
  = Returned
      (mkDataFrame
         (filter (fun col => existsb (fun r => str_in col (keys r)) rows)
                 column_order)
         (map (fun r =>
                 map (dict_lookup r)
                     (filter (fun col =>
                                existsb (fun r => str_in col (keys r)) rows)
                             column_order))
              rows)).
Proof.
  unfold pd.DataFrame_of, pd.getitem. cbn [columns data].
  rewrite forallb_filter.
  rewrite (filter_ext _ _ (fun col => str_in_union_keys col rows)).
  do 2 f_equal. rewrite map_map. apply map_ext. intros r.
  apply map_ext_in. intros c Hc.
  apply filter_In in Hc as [_ Hc].
  rewrite <- str_in_union_keys in Hc. apply str_in_In in Hc.
  now apply cell_of_map.
Qed.

(* ================================================================== *)
(** ** The extension test of the batch loop *)

Lemma str_lower_app (a b : string) :
  str_lower (a ++ b) = str_lower a ++ str_lower b.
Proof.
  induction a as [|c a IH]; [reflexivity|].
  cbn [append str_lower]. now rewrite IH.
Qed.

(** A lowered character is never the capital X. *)
Lemma ascii_lower_not_X (c : ascii) : ascii_lower c <> "X"%char.
Proof.
  destruct c as [b0 b1 b2 b3 b4 b5 b6 b7].
  destruct b0, b1, b2, b3, b4, b5, b6, b7; vm_compute; discriminate.
Qed.

Lemma endswith_unfold (s suffix : string) :
  endswith s suffix
  = if (s =? suffix)%string then true
    else match s with
         | EmptyString => false
         | String _ rest => endswith rest suffix
         end.
Proof. destruct s; reflexivity. Qed.

Lemma endswith_spec (s suffix : string) :
  endswith s suffix = true <-> exists pre, s = pre ++ suffix.
Proof.
  split.
  - induction s as [|c s IH]; rewrite endswith_unfold;
      destruct (_ =? suffix)%string eqn:E.
    + apply String.eqb_eq in E. exists "". now subst.
    + discriminate.
    + apply String.eqb_eq in E. exists "". now subst.
    + intros H. destruct (IH H) as (pre & ->). now exists (String c pre).
  - intros (pre & ->). induction pre as [|c pre IH].
    + rewrite endswith_unfold. cbn [append]. now rewrite String.eqb_refl.
    + rewrite endswith_unfold. cbn [append].
      now destruct (_ =? suffix)%string.
Qed.

Lemma str_lower_split (a b : string) :
  forall f, str_lower f = a ++ b ->
            exists f1 f2, f = f1 ++ f2 /\ str_lower f1 = a
                          /\ str_lower f2 = b.
Proof.
  induction a as [|c a IH]; intros f H.
  - exists "", f. auto.
  - destruct f as [|d f]; [discriminate|].
    cbn [str_lower append] in H. injection H as Hd Hf.
    destruct (IH f Hf) as (f1 & f2 & -> & H1 & H2).
    exists (String d f1), f2. cbn [str_lower append].
    now rewrite Hd, H1.
Qed.

Lemma endswith_lower_XML (f : string) :
  endswith (str_lower f) ".XML" = false.
Proof.
  destruct (endswith (str_lower f) ".XML") eqn:E; [|reflexivity].
  apply endswith_spec in E as (pre & E).
  apply str_lower_split in E as (f1 & f2 & _ & _ & H2).
  destruct f2 as [|c1 [|c2 f2]]; try discriminate.
  cbn [str_lower] in H2. injection H2 as _ H2 _.
  now elim (ascii_lower_not_X c2).
Qed.

Lemma is_xml_name_ext (stem ext : string) :
  str_lower ext = ".xml" -> is_xml_name (stem ++ ext) = true.
Proof.
  intros H. unfold is_xml_name. cbn [existsb].
  apply orb_true_iff. left. apply endswith_spec.
  exists (str_lower stem). now rewrite str_lower_app, H.
Qed.

(** X6.  The loop takes a listing entry exactly when the name ends in
    [.xml] in any mix of upper and lower case; the second suffix of the
    test, [.XML], never matches a lowered name and adds nothing. *)
Theorem xml_name_filter (filename : string) :
  is_xml_name filename = endswith (str_lower filename) ".xml"
  /\ endswith (str_lower filename) ".XML" = false
  /\ (is_xml_name filename = true
      <-> exists stem ext,
            filename = stem ++ ext /\ str_lower ext = ".xml").
Proof.
  assert (H1 : is_xml_name filename = endswith (str_lower filename) ".xml").
  { unfold is_xml_name. cbn [existsb].
    rewrite endswith_lower_XML. now rewrite !orb_false_r. }
  split; [exact H1|]. split; [apply endswith_lower_XML|].
  rewrite H1, endswith_spec. split.
  - intros (pre & E).
    apply str_lower_split in E as (f1 & f2 & -> & _ & H2). eauto.
  - intros (stem & ext & -> & H). exists (str_lower stem).
    now rewrite str_lower_app, H.
Qed.

Lemma xml_name_filter_witness :
  is_xml_name "Catalog.XmL" = true.
Proof.
  apply (proj2 (proj2 (proj2 (xml_name_filter "Catalog.XmL")))).
  exists "Catalog", ".XmL". split; reflexivity.
Defined.

(** X7.  Listing entries that fail the extension test leave no trace: the
    batch over a listing is the batch over its [.xml] names, and a listing
    without any does nothing at all. *)
Theorem main_loop_skips_other_names (cfg : Config) (env : string -> World)
        (listing : list string) :
  (forall s,
      main_loop cfg env listing s
      = main_loop cfg env (filter is_xml_name listing) s)
  /\
  (filter is_xml_name listing = [] ->
   forall s, main_loop cfg env listing s = (Returned tt, s)).
Proof.
  assert (G : forall s,
             main_loop cfg env listing s
             = main_loop cfg env (filter is_xml_name listing) s).
  { induction listing as [|f rest IH]; intros s; [reflexivity|].
    cbn [main_loop filter]. destruct (is_xml_name f) eqn:E; cbn [negb].
    - cbn [main_loop]. rewrite E. cbn [negb]. unfold bind.
      destruct (process_file cfg (env f) f s) as [[[]|e] s1];
        [apply IH|reflexivity].
    - apply IH. }
  split; [exact G|]. intros Hnone s. now rewrite G, Hnone.
Qed.

Lemma main_loop_skips_other_names_witness :
  main_loop (mkConfig "in" "out" "/proj")
            (fun _ => quiet_world (WellFormed scenario_A))
            ["notes.txt"; "a.xml.bak"; "xml"] initial
  = (Returned tt, initial).
Proof.
  apply (proj2 (main_loop_skips_other_names
                  (mkConfig "in" "out" "/proj")
                  (fun _ => quiet_world (WellFormed scenario_A))
                  ["notes.txt"; "a.xml.bak"; "xml"])).
  reflexivity.
Defined.

(* ================================================================== *)
(** ** One file of the batch *)

Lemma table_of_canonical (rows : list dict) :
  rows <> [] ->
  Z.of_nat (List.length rows) <= 1048576 ->
  Forall (fun r => exists m p u, r = flat_row m p u) rows ->
  canonical_table (table_of rows).
Proof.
  intros Hne Hle Hflat. unfold canonical_table, table_of.
  cbn [columns data]. rewrite length_map.
  split; [reflexivity|]. split; [destruct rows; [now elim Hne|cbn; lia]|].
  split; [exact Hle|].
  apply Forall_map. eapply Forall_impl; [|exact Hflat].
  intros r (m & p & u & ->). apply cells_of_flat_row_shape.
Qed.

Lemma parse_result_returned (w : World) (filepath : string) (s : State) :
  exists r, fst (parse_contact_lens_xml w filepath s) = Returned r.
Proof. destruct (parse_run_complete w filepath s); cbn [fst]; eauto. Qed.

(** Every table the Parser returns is canonical. *)
Lemma returned_table_canonical (w : World) (filepath : string) (s : State)
      (df : DataFrame) :
  fst (parse_contact_lens_xml w filepath s) = Returned (Some df) ->
  canonical_table df.
Proof.
  intros H.
  destruct (@returned_table_inv w filepath s df H)
    as (root & _ & _ & _ & [Hpos Hle] & ->).
  apply table_of_canonical; [|exact Hle|apply extract_rows_flat].
  intros H0. rewrite H0 in Hpos. cbn in Hpos. lia.
Qed.

Lemma canonical_not_empty (df : DataFrame) :
  canonical_table df -> pd.empty df = false.
Proof.
  intros (Hc & Hpos & _). unfold pd.empty. rewrite Hc.
  destruct (data df); [cbn in Hpos; lia|reflexivity].
Qed.

(** The loop body, by what the Parser returned. *)
Lemma process_file_unfold (cfg : Config) (w : World) (filename : string)
      (s : State) :
  process_file cfg w filename s
  = match parse_contact_lens_xml
            w (os_path.join (XML_INPUT_DIR cfg) filename)
            (after_print ("Processing: " ++ filename) s) with
    | (Returned (Some df), s2) =>
        if negb (pd.empty df) then
          match excel_fault w with
          | None =>
              (Returned tt,
               after_print (saved_notice filename df)
                           (after_write (output_path_of cfg filename) df s2))
          | Some e =>
              (Returned tt, after_log w filename (reason_excel e) s2)
          end
        else (Returned tt, after_print "  Skipped" s2)
    | (Returned None, s2) => (Returned tt, after_print "  Skipped" s2)
    | (Raised e, s2) => (Raised e, s2)
    end.
Proof.
  unfold process_file, bind at 1, print at 1. unfold bind at 1.
  change (mkState (log_file s) (stdout s ++ ["Processing: " ++ filename])
                  (parsed s) (xlsx s))
    with (after_print ("Processing: " ++ filename) s).
  destruct (parse_contact_lens_xml _ _ _) as [[[df|]|e] s2];
    [|reflexivity|reflexivity].
  destruct (pd.empty df); cbn [negb]; [reflexivity|].
  unfold try_except, bind, to_excel.
  destruct (excel_fault w) as [e|]; reflexivity.
Qed.

(** X8.  The loop body never raises, and for one file it does exactly one
    of three things.  The Parser returned a table and the write succeeded:
    that table, always canonical, is written to the output path, the log is
    untouched and [Saved] is printed.  The Parser returned a table and the
    write raised: nothing is written and [Excel write failed: <kind> -
    <detail>] is logged.  The Parser returned [None]: nothing is written,
    the log is as the Parser left it and [Skipped] is printed.  A returned
    table is never empty, so it is never skipped. *)
Theorem process_file_outcomes (cfg : Config) (w : World) (filename : string)
        (s : State) :
  fst (process_file cfg w filename s) = Returned tt
  /\
  ((exists df s2,
       parse_contact_lens_xml
         w (os_path.join (XML_INPUT_DIR cfg) filename)
         (after_print ("Processing: " ++ filename) s)
       = (Returned (Some df), s2)
       /\ canonical_table df /\ excel_fault w = None
       /\ snd (process_file cfg w filename s)
          = after_print (saved_notice filename df)
                        (after_write (output_path_of cfg filename) df s2)
       /\ log_file s2 = log_file s /\ xlsx s2 = xlsx s)
   \/
   (exists df s2 e,
       parse_contact_lens_xml
         w (os_path.join (XML_INPUT_DIR cfg) filename)
         (after_print ("Processing: " ++ filename) s)
       = (Returned (Some df), s2)
       /\ excel_fault w = Some e
       /\ snd (process_file cfg w filename s)
          = after_log w filename (reason_excel e) s2
       /\ log_file s2 = log_file s /\ xlsx s2 = xlsx s)
   \/
   (exists s2,
       parse_contact_lens_xml
         w (os_path.join (XML_INPUT_DIR cfg) filename)
         (after_print ("Processing: " ++ filename) s)
       = (Returned None, s2)
       /\ snd (process_file cfg w filename s)
          = after_print "  Skipped" s2
       /\ xlsx s2 = xlsx s)).
Proof.
  rewrite process_file_unfold.
  pose proof (parse_keeps_xlsx
                w (os_path.join (XML_INPUT_DIR cfg) filename)
                (after_print ("Processing: " ++ filename) s)) as Hx.
  pose proof (parse_log_growth
                w (os_path.join (XML_INPUT_DIR cfg) filename)
                (after_print ("Processing: " ++ filename) s))
    as (new & Hl & _ & Hnone & _).
  pose proof (@returned_table_canonical
                w (os_path.join (XML_INPUT_DIR cfg) filename)
                (after_print ("Processing: " ++ filename) s)) as Hcan.
  pose proof (parse_result_returned
                w (os_path.join (XML_INPUT_DIR cfg) filename)
                (after_print ("Processing: " ++ filename) s)) as Hret.
  destruct (parse_contact_lens_xml _ _ _) as [[[df|]|e] s2];
    cbn [fst snd after_print log_file xlsx] in *.
  - specialize (Hcan df eq_refl). rewrite (Hnone df eq_refl) in Hl.
    rewrite app_nil_r in Hl.
    rewrite (canonical_not_empty Hcan). cbn [negb].
    destruct (excel_fault w) as [e|] eqn:He; cbn [fst snd].
    + split; [reflexivity|]. right; left. exists df, s2, e. auto.
    + split; [reflexivity|]. left. exists df, s2. auto 7.
  - split; [reflexivity|]. right; right. exists s2. auto.
  - destruct Hret as (r & Hr). discriminate.
Qed.

(* ================================================================== *)
(** ** The whole batch *)

(** What one file adds to the log and to the spreadsheets. *)
Lemma process_file_step (cfg : Config) (w : World) (filename : string)
      (s : State) :
  fst (process_file cfg w filename s) = Returned tt
  /\ exists new_log new_xlsx,
      log_file (snd (process_file cfg w filename s))
      = (log_file s ++ new_log)%list
      /\ xlsx (snd (process_file cfg w filename s))
         = (xlsx s ++ new_xlsx)%list
      /\ (List.length new_log + List.length new_xlsx <= 1)%nat
      /\ Forall (fun pdf => fst pdf = output_path_of cfg filename
                            /\ canonical_table (snd pdf)) new_xlsx
      /\ Forall (fun line =>
                   exists reason,
                     line = log_line (clock w) filename reason
                     \/ line = log_line
                                 (clock w)
                                 (os_path.basename
                                    (os_path.join (XML_INPUT_DIR cfg)
                                                  filename))
                                 reason)
                new_log.
Proof.
  rewrite process_file_unfold.
  pose proof (parse_keeps_xlsx
                w (os_path.join (XML_INPUT_DIR cfg) filename)
                (after_print ("Processing: " ++ filename) s)) as Hx.
  pose proof (parse_log_growth
                w (os_path.join (XML_INPUT_DIR cfg) filename)
                (after_print ("Processing: " ++ filename) s))
    as (new & Hl & Hlen & Hnone & Hnames).
  pose proof (@returned_table_canonical
                w (os_path.join (XML_INPUT_DIR cfg) filename)
                (after_print ("Processing: " ++ filename) s)) as Hcan.
  pose proof (parse_result_returned
                w (os_path.join (XML_INPUT_DIR cfg) filename)
                (after_print ("Processing: " ++ filename) s)) as Hret.
  destruct (parse_contact_lens_xml _ _ _) as [[[df|]|e] s2];
    cbn [fst snd after_print log_file xlsx] in *.
  - specialize (Hcan df eq_refl). rewrite (Hnone df eq_refl) in Hl.
    rewrite app_nil_r in Hl.
    rewrite (canonical_not_empty Hcan). cbn [negb].
    destruct (excel_fault w) as [e|]; cbn [fst snd].
    + split; [reflexivity|].
      exists [log_line (clock w) filename (reason_excel e)], [].
      cbn [after_log log_file xlsx]. rewrite Hl, Hx, app_nil_r.
      repeat split; auto. constructor; [eauto|constructor].
    + split; [reflexivity|].
      exists [], [(output_path_of cfg filename, df)].
      cbn [after_print after_write log_file xlsx].
      rewrite Hl, Hx, app_nil_r. repeat split; auto.
  - split; [reflexivity|]. exists new, [].
    cbn [after_print log_file xlsx]. rewrite Hl, Hx, app_nil_r.
    repeat split; auto; [cbn [List.length]; lia|].
    eapply Forall_impl; [|exact Hnames]. intros line (reason & ->). eauto.
  - destruct Hret as (r & Hr). discriminate.
Qed.

Lemma main_loop_run (cfg : Config) (env : string -> World)
      (listing : list string) :
  forall s,
    fst (main_loop cfg env listing s) = Returned tt
    /\ exists new_log new_xlsx,
        log_file (snd (main_loop cfg env listing s))
        = (log_file s ++ new_log)%list
        /\ xlsx (snd (main_loop cfg env listing s))
           = (xlsx s ++ new_xlsx)%list
        /\ (List.length new_log + List.length new_xlsx
            <= List.length (filter is_xml_name listing))%nat
        /\ Forall (fun pdf =>
                     (exists filename,
                         In filename listing
                         /\ is_xml_name filename = true
                         /\ fst pdf = output_path_of cfg filename)
                     /\ canonical_table (snd pdf)) new_xlsx.
Proof.
  induction listing as [|f rest IH]; intros s.
  - split; [reflexivity|]. exists [], []. cbn. rewrite !app_nil_r. auto.
  - cbn [main_loop filter]. destruct (is_xml_name f) eqn:E; cbn [negb].
    + unfold bind.
      destruct (process_file_step cfg (env f) f s)
        as (Hret & l1 & x1 & Hl1 & Hx1 & Hn1 & Hc1 & _).
      destruct (process_file cfg (env f) f s) as [[[]|e] s1];
        cbn [fst snd] in *; [|discriminate].
      destruct (IH s1) as (Hret2 & l2 & x2 & Hl2 & Hx2 & Hn2 & Hc2).
      split; [exact Hret2|].
      exists (l1 ++ l2)%list, (x1 ++ x2)%list.
      rewrite Hl2, Hx2, Hl1, Hx1, !app_assoc, !length_app.
      split; [reflexivity|]. split; [reflexivity|].
      split; [cbn [List.length]; lia|].
      apply Forall_app. split.
      * eapply Forall_impl; [|exact Hc1].
        intros pdf [Hp Hcan]. split; [|exact Hcan].
        exists f. split; [now left|auto].
      * eapply Forall_impl; [|exact Hc2].
        intros pdf [(f' & Hin & Hx & Hp) Hcan]. split; [|exact Hcan].
        exists f'. split; [now right|auto].
    + destruct (IH s) as (Hret2 & l2 & x2 & Hl2 & Hx2 & Hn2 & Hc2).
      split; [exact Hret2|]. exists l2, x2.
      repeat split; auto.
      eapply Forall_impl; [|exact Hc2].
      intros pdf [(f' & Hin & Hx & Hp) Hcan]. split; [|exact Hcan].
      exists f'. split; [now right|auto].
Qed.


(** X10.  Every spreadsheet the batch writes holds a canonical table (the
    20 columns in order, between 1 and 1,048,576 rows, a string in every
    cell) and goes to the output path of an [.xml] name of the listing. *)
Theorem batch_spreadsheets (cfg : Config) (env : string -> World)
        (listing : list string) (s : State) (path : string)
        (df : DataFrame) :
  In (path, df) (xlsx (snd (main_loop cfg env listing s))) ->
  In (path, df) (xlsx s)
  \/ (canonical_table df
      /\ exists filename,
          In filename listing /\ is_xml_name filename = true
          /\ path = output_path_of cfg filename).
Proof.
  destruct (main_loop_run cfg env listing s)
    as (_ & l & x & _ & Hx & _ & Hc).
  rewrite Hx, in_app_iff. intros [H|H]; [now left|right].
  rewrite Forall_forall in Hc. destruct (Hc _ H) as [Hf Hcan]. auto.
Qed.

Lemma batch_spreadsheets_witness :
  canonical_table (table_of (extract_rows scenario_A))
  /\ exists filename,
      In filename ["a.xml"] /\ is_xml_name filename = true
      /\ "out/a.xlsx" = output_path_of (mkConfig "in" "out" "/proj") filename.
Proof.
  destruct (@batch_spreadsheets
              (mkConfig "in" "out" "/proj")
              (fun _ => quiet_world (WellFormed scenario_A))
              ["a.xml"] initial "out/a.xlsx"
              (table_of (extract_rows scenario_A))) as [H|H].
  - vm_compute. left. reflexivity.
  - destruct H.
  - exact H.
Defined.

(* ================================================================== *)
(** ** Paths and names *)

Lemma has_sep_app (a b : string) :
  os_path.has_sep (a ++ b) = orb (os_path.has_sep a) (os_path.has_sep b).
Proof.
  induction a as [|c a IH]; [reflexivity|].
  cbn [append os_path.has_sep]. rewrite IH.
  now destruct (Ascii.eqb c "/").
Qed.

Lemma basename_no_sep (p : string) :
  os_path.has_sep p = false -> os_path.basename p = p.
Proof.
  destruct p as [|c rest]; [reflexivity|].
  cbn [os_path.has_sep os_path.basename].
  destruct (Ascii.eqb c "/"); [discriminate|]. now intros ->.
Qed.

Lemma basename_after_sep (a b : string) :
  os_path.has_sep b = false -> os_path.basename (a ++ String "/" b) = b.
Proof.
  intros Hb. induction a as [|c a IH].
  - cbn [append os_path.basename]. now rewrite Hb.
  - cbn [append os_path.basename].
    rewrite has_sep_app. cbn [os_path.has_sep Ascii.eqb Bool.eqb].
    rewrite orb_true_r. exact IH.
Qed.

Lemma endswith_sep_split (a : string) :
  os_path.endswith_sep a = true -> exists a', a = a' ++ "/".
Proof.
  induction a as [|c a IH]; [discriminate|].
  cbn [os_path.endswith_sep]. destruct a as [|d a].
  - intros H. apply Ascii.eqb_eq in H. subst. now exists "".
  - intros H. destruct (IH H) as (a' & E). rewrite E.
    now exists (String c a').
Qed.

Lemma startswith_sep_no_sep (p : string) :
  os_path.has_sep p = false -> os_path.startswith_sep p = false.
Proof.
  destruct p as [|c rest]; [reflexivity|].
  cbn [os_path.has_sep os_path.startswith_sep].
  now destruct (Ascii.eqb c "/").
Qed.

Lemma string_app_assoc (a b c : string) : (a ++ b) ++ c = a ++ (b ++ c).
Proof.
  induction a as [|x a IH]; [reflexivity|]. cbn [append]. now rewrite IH.
Qed.

Lemma basename_join (dir filename : string) :
  os_path.has_sep filename = false ->
  os_path.basename (os_path.join dir filename) = filename.
Proof.
  intros Hf. unfold os_path.join.
  rewrite (startswith_sep_no_sep _ Hf).
  destruct (dir =? "")%string eqn:Ed.
  - apply String.eqb_eq in Ed. subst. cbn [orb append].
    now apply basename_no_sep.
  - cbn [orb]. destruct (os_path.endswith_sep dir) eqn:Es.
    + destruct (endswith_sep_split _ Es) as (a' & ->).
      rewrite string_app_assoc. cbn [append].
      now apply basename_after_sep.
    + cbn [append]. now apply basename_after_sep.
Qed.

(** X11.  For a listing entry (a name without [/]) the Parser recovers the
    entry itself from the input path it is given, so every line the loop
    body adds to the log, whoever writes it, names the file as listed. *)
Theorem log_names_listed_file (cfg : Config) (w : World) (filename : string)
        (s : State) :
  os_path.has_sep filename = false ->
  os_path.basename (os_path.join (XML_INPUT_DIR cfg) filename) = filename
  /\ exists new_log,
      log_file (snd (process_file cfg w filename s))
      = (log_file s ++ new_log)%list
      /\ Forall (fun line =>
                   exists reason, line = log_line (clock w) filename reason)
                new_log.
Proof.
  intros Hf.
  pose proof (basename_join (XML_INPUT_DIR cfg) _ Hf) as Hb.
  split; [exact Hb|].
  destruct (process_file_step cfg w filename s)
    as (_ & new_log & _ & Hl & _ & _ & _ & Hnames).
  exists new_log. split; [exact Hl|].
  eapply Forall_impl; [|exact Hnames].
  intros line (reason & [->| ->]); exists reason; [reflexivity|].
  now rewrite Hb.
Qed.

Lemma log_names_listed_file_witness :
  os_path.basename (os_path.join "in" "a.xml") = "a.xml".
Proof.
  apply (proj1 (@log_names_listed_file
                  (mkConfig "in" "out" "/proj")
                  (quiet_world (WellFormed scenario_A)) "a.xml" initial
                  eq_refl)).
Defined.

(** *** The output name *)

Lemma occurs_app (c : ascii) (a b : string) :
  occurs c (a ++ b) = orb (occurs c a) (occurs c b).
Proof.
  induction a as [|d a IH]; [reflexivity|].
  cbn [append occurs]. rewrite IH. now destruct (Ascii.eqb d c).
Qed.

Lemma has_sep_occurs (p : string) : os_path.has_sep p = occurs "/" p.
Proof.
  induction p as [|c p IH]; [reflexivity|].
  cbn [os_path.has_sep occurs]. now rewrite IH.
Qed.

Lemma rfind_from_absent (c : ascii) (s : string) :
  occurs c s = false ->
  forall i last, os_path.rfind_from c s i last = last.
Proof.
  induction s as [|d s IH]; intros H i last; [reflexivity|].
  cbn [occurs] in H. cbn [os_path.rfind_from].
  destruct (Ascii.eqb d c); [discriminate|]. now apply IH.
Qed.

Lemma rfind_from_last (c : ascii) (s1 s2 : string) :
  occurs c s2 = false ->
  forall i last,
    os_path.rfind_from c (s1 ++ String c s2) i last
    = i + Z.of_nat (String.length s1).
Proof.
  intros H2. induction s1 as [|d s1 IH]; intros i last.
  - cbn [append os_path.rfind_from String.length].
    rewrite Ascii.eqb_refl, (rfind_from_absent _ _ H2). cbn. lia.
  - cbn [append os_path.rfind_from String.length]. rewrite IH. lia.
Qed.

Lemma non_dot_between_out (s : string) :
  forall i lo hi, hi <= i -> os_path.non_dot_between s i lo hi = false.
Proof.
  induction s as [|d s IH]; intros i lo hi H; [reflexivity|].
  cbn [os_path.non_dot_between].
  destruct (i <? hi) eqn:E; [lia|].
  rewrite andb_false_r. cbn [andb]. apply IH. lia.
Qed.

Lemma non_dot_between_prefix (s1 s2 : string) :
  forall i lo,
    lo <= i ->
    os_path.non_dot_between (s1 ++ s2) i lo (i + Z.of_nat (String.length s1))
    = has_non_dot s1.
Proof.
  induction s1 as [|d s1 IH]; intros i lo H.
  - cbn [append String.length has_non_dot].
    apply non_dot_between_out. cbn. lia.
  - cbn [append os_path.non_dot_between String.length has_non_dot].
    destruct (lo <=? i) eqn:E1; [|lia].
    destruct (i <? i + Z.of_nat (S (String.length s1))) eqn:E2;
      [|apply Z.ltb_ge in E2; lia].
    cbn [andb]. destruct (Ascii.eqb d "."); cbn [negb]; [|reflexivity].
    replace (i + Z.of_nat (S (String.length s1)))
      with ((i + 1) + Z.of_nat (String.length s1)) by lia.
    apply IH. lia.
Qed.

Lemma substring_prefix (s1 s2 : string) :
  substring 0 (String.length s1) (s1 ++ s2) = s1.
Proof.
  induction s1 as [|c s1 IH].
  - cbn [String.length append]. now destruct s2.
  - cbn [String.length append substring]. now rewrite IH.
Qed.

(** [splitext] of a name [stem.ext]: the extension goes when the stem has a
    character that is not a dot, and stays otherwise. *)
Lemma splitext_stem (stem e : string) :
  os_path.has_sep stem = false -> os_path.has_sep e = false ->
  occurs "." e = false ->
  fst (os_path.splitext (stem ++ String "." e))
  = if has_non_dot stem then stem else stem ++ String "." e.
Proof.
  intros Hs He Hd. unfold os_path.splitext, os_path.rfind.
  rewrite (rfind_from_last "." stem e Hd).
  rewrite (rfind_from_absent "/" (stem ++ String "." e)).
  2:{ rewrite <- has_sep_occurs, has_sep_app, Hs.
      cbn [os_path.has_sep Ascii.eqb Bool.eqb orb]. exact He. }
  rewrite (@non_dot_between_prefix stem (String "." e) 0 (-1 + 1))
    by lia.
  destruct (0 + Z.of_nat (String.length stem) >? -1) eqn:E;
    [|exfalso; rewrite Z.gtb_ltb in E; apply Z.ltb_ge in E; lia].
  cbn [andb]. destruct (has_non_dot stem); [|reflexivity].
  cbn [fst]. rewrite Z.add_0_l, Nat2Z.id. apply substring_prefix.
Qed.

Lemma lowers_to_xml_char (c : ascii) :
  ascii_lower c = "x"%char \/ ascii_lower c = "m"%char
  \/ ascii_lower c = "l"%char ->
  Ascii.eqb c "." = false /\ Ascii.eqb c "/" = false.
Proof.
  destruct c as [b0 b1 b2 b3 b4 b5 b6 b7].
  destruct b0, b1, b2, b3, b4, b5, b6, b7; vm_compute;
    intros [H|[H|H]]; try discriminate; split; reflexivity.
Qed.

Lemma ascii_lower_dot (c : ascii) : ascii_lower c = "."%char -> c = "."%char.
Proof.
  destruct c as [b0 b1 b2 b3 b4 b5 b6 b7].
  destruct b0, b1, b2, b3, b4, b5, b6, b7; vm_compute;
    intros H; try discriminate; reflexivity.
Qed.

Lemma xml_extension_shape (ext : string) :
  str_lower ext = ".xml" ->
  exists e, ext = String "." e /\ os_path.has_sep e = false
            /\ occurs "." e = false.
Proof.
  destruct ext as [|c0 [|c1 [|c2 [|c3 [|c4 ext]]]]]; try discriminate.
  cbn [str_lower]. intros H. injection H as H0 H1 H2 H3.
  apply ascii_lower_dot in H0. subst c0.
  exists (String c1 (String c2 (String c3 ""))).
  destruct (lowers_to_xml_char c1) as [D1 S1]; [auto|].
  destruct (lowers_to_xml_char c2) as [D2 S2]; [auto|].
  destruct (lowers_to_xml_char c3) as [D3 S3]; [auto|].
  cbn [os_path.has_sep occurs]. rewrite D1, D2, D3, S1, S2, S3. auto.
Qed.

Lemma output_path_stem (cfg : Config) (stem ext : string) :
  os_path.has_sep stem = false ->
  str_lower ext = ".xml" ->
  output_path_of cfg (stem ++ ext)
  = os_path.join (XLSX_OUTPUT_DIR cfg)
                 ((if has_non_dot stem then stem else stem ++ ext)
                  ++ ".xlsx").
Proof.
  intros Hs Hext.
  destruct (xml_extension_shape _ Hext) as (e & -> & He & Hd).
  unfold output_path_of. now rewrite (splitext_stem _ _ Hs He Hd).
Qed.

(** X12.  The spreadsheet of an entry [stem.xml] (the extension in any
    case) is written to [stem.xlsx] in the output directory when the stem
    has a character that is not a dot; for an entry that is only dots and
    the extension, [.xml] itself for one, the extension is kept and the
    spreadsheet is named after the whole entry. *)
Theorem output_name (cfg : Config) (stem ext : string) :
  os_path.has_sep stem = false ->
  str_lower ext = ".xml" ->
  is_xml_name (stem ++ ext) = true
  /\ output_path_of cfg (stem ++ ext)
     = os_path.join (XLSX_OUTPUT_DIR cfg)
                    ((if has_non_dot stem then stem else stem ++ ext)
                     ++ ".xlsx").
Proof.
  intros Hs Hext. split.
  - now apply is_xml_name_ext.
  - now apply output_path_stem.
Qed.

Lemma output_name_witness :
  output_path_of (mkConfig "in" "out" "/proj") ("catalog.v2" ++ ".XML")
  = "out/catalog.v2.xlsx"
  /\ output_path_of (mkConfig "in" "out" "/proj") ("" ++ ".xml")
     = "out/.xml.xlsx".
Proof.
  split.
  - apply (proj2 (@output_name (mkConfig "in" "out" "/proj")
                               "catalog.v2" ".XML" eq_refl eq_refl)).
  - apply (proj2 (@output_name (mkConfig "in" "out" "/proj")
                               "" ".xml" eq_refl eq_refl)).
Defined.



(* ================================================================== *)
(** ** The shape of a log entry *)

Lemma occurs_string_of_list (c : ascii) (l : list ascii) :
  Forall (fun d => Ascii.eqb d c = false) l ->
  occurs c (string_of_list_ascii l) = false.
Proof.
  induction 1 as [|d l Hd _ IH]; [reflexivity|].
  cbn [string_of_list_ascii occurs]. now rewrite Hd.
Qed.

Lemma list_of_string_free (c : ascii) (s : string) :
  occurs c s = false ->
  Forall (fun d => Ascii.eqb d c = false) (list_ascii_of_string s).
Proof.
  induction s as [|d s IH]; intros H; [constructor|].
  cbn [occurs] in H. cbn [list_ascii_of_string].
  destruct (Ascii.eqb d c) eqn:E; [discriminate|]. constructor; auto.
Qed.

Lemma group3_Forall (P : ascii -> Prop) :
  P ","%char -> forall l, Forall P l -> Forall P (group3 l).
Proof.
  intros Hc.
  assert (G : forall n l, (List.length l <= n)%nat ->
                          Forall P l -> Forall P (group3 l)).
  { induction n as [|n IH]; intros l Hn Hl.
    - destruct l; [constructor|cbn in Hn; lia].
    - destruct l as [|a [|b [|c [|d rest]]]]; try exact Hl.
      change (group3 (a :: b :: c :: d :: rest))
        with (a :: b :: c :: ","%char :: group3 (d :: rest)).
      inversion Hl as [|? ? Ha Hl1]; subst.
      inversion Hl1 as [|? ? Hb Hl2]; subst.
      inversion Hl2 as [|? ? Hc' Hl3]; subst.
      constructor; [exact Ha|]. constructor; [exact Hb|].
      constructor; [exact Hc'|]. constructor; [exact Hc|].
      apply IH; [cbn [List.length] in *; lia|exact Hl3]. }
  intros l. now apply (G (List.length l)).
Qed.

Lemma commas_free (digits : string) :
  occurs LF digits = false -> occurs LF (commas digits) = false.
Proof.
  intros H. unfold commas. apply occurs_string_of_list.
  apply Forall_rev, group3_Forall; [reflexivity|].
  apply Forall_rev. now apply list_of_string_free.
Qed.

Lemma digits_free (u : Decimal.uint) :
  occurs LF (NilEmpty.string_of_uint u) = false.
Proof. unfold LF. induction u; simpl; auto. Qed.

Lemma string_of_uint_free (u : Decimal.uint) :
  occurs LF (NilZero.string_of_uint u) = false.
Proof.
  destruct u; [reflexivity|..]; unfold NilZero.string_of_uint;
    apply digits_free.
Qed.

Lemma format_commas_free (n : Z) : occurs LF (format_commas n) = false.
Proof.
  destruct n; cbn [format_commas]; apply commas_free, string_of_uint_free.
Qed.

(** X14.  An entry of the log is its text followed by one line feed, and
    the text holds a line feed only if the timestamp, the file name or the
    reason does.  The reasons for the two size limits and for memory
    exhaustion never do, and the reason for a parse error does only if the
    parser's message does: such entries are one line each. *)
Theorem log_entry_one_line (ts filename reason : string) :
  log_line ts filename reason
  = ("[" ++ ts ++ "] " ++ filename ++ " - " ++ reason) ++ nl
  /\ occurs LF ("[" ++ ts ++ "] " ++ filename ++ " - " ++ reason)
     = orb (occurs LF ts) (orb (occurs LF filename) (occurs LF reason))
  /\ (forall n, occurs LF (reason_too_many_upcs n) = false)
  /\ (forall n, occurs LF (reason_too_many_rows n) = false)
  /\ occurs LF reason_memory_error = false
  /\ (forall detail,
         occurs LF (reason_parse_error detail) = occurs LF detail).
Proof.
  split.
  { unfold log_line. now rewrite !string_app_assoc. }
  split.
  { rewrite !occurs_app.
    change (occurs LF "[") with false. change (occurs LF "] ") with false.
    change (occurs LF " - ") with false. reflexivity. }
  split.
  { intros n. unfold reason_too_many_upcs.
    rewrite !occurs_app, format_commas_free. reflexivity. }
  split.
  { intros n. unfold reason_too_many_rows.
    rewrite !occurs_app, format_commas_free. reflexivity. }
  split; [reflexivity|].
  intros detail. unfold reason_parse_error. now rewrite occurs_app.
Qed.

(* ================================================================== *)
(** ** write_xlsx_file *)

Lemma startswith_app (a b : string) : startswith (a ++ b) a = true.
Proof.
  induction a as [|c a IH]; [now destruct b|].
  cbn [append startswith]. now rewrite Ascii.eqb_refl, IH.
Qed.

Lemma join_relative (a b : string) :
  os_path.startswith_sep b = false ->
  startswith (os_path.join a b) a = true
  /\ endswith (os_path.join a b) b = true.
Proof.
  intros Hb. unfold os_path.join. rewrite Hb.
  destruct (orb (a =? "")%string (os_path.endswith_sep a)).
  - split; [apply startswith_app|]. apply endswith_spec. eauto.
  - split; [apply startswith_app|]. apply endswith_spec.
    exists (a ++ "/"). now rewrite string_app_assoc.
Qed.

(** X15.  [write_xlsx_file] writes no file, whatever [data] is.  When the
    directory cannot be made, the error surfaces as a [RuntimeError] naming
    the file.  Otherwise it returns a path: for a relative [filename], one
    that starts with [archive_path] and ends with [filename]; for a
    [filename] starting with [/], the [filename] alone, outside
    [archive_path]. *)
Theorem write_xlsx_file_path (data : dict) (filename archive_path : string)
        (d : writers.Disk) :
  (forall fault,
      writers.written
        (snd (writers.write_xlsx_file fault data filename archive_path d))
      = writers.written d)
  /\
  (forall e,
      writers.write_xlsx_file (Some e) data filename archive_path d
      = (Raised (OtherException "RuntimeError"
                   ("Failed to write archive JSON file: " ++ filename)),
         d))
  /\
  (os_path.startswith_sep filename = false ->
   exists p,
     fst (writers.write_xlsx_file None data filename archive_path d)
     = Returned p
     /\ startswith p archive_path = true /\ endswith p filename = true)
  /\
  (os_path.startswith_sep filename = true ->
   fst (writers.write_xlsx_file None data filename archive_path d)
   = Returned filename).
Proof.
  split; [intros [e|]; reflexivity|].
  split; [reflexivity|].
  split.
  - intros Hrel. exists (os_path.join archive_path filename).
    split; [reflexivity|]. now apply join_relative.
  - intros Habs. unfold writers.write_xlsx_file, writers.makedirs.
    cbn [fst]. unfold os_path.join. now rewrite Habs.
Qed.

Lemma write_xlsx_file_path_witness :
  (exists p,
      fst (writers.write_xlsx_file None [] "report.xlsx" "archive"
             (writers.mkDisk [] []))
      = Returned p
      /\ startswith p "archive" = true /\ endswith p "report.xlsx" = true)
  /\ fst (writers.write_xlsx_file None [] "/etc/report.xlsx" "archive"
            (writers.mkDisk [] []))
     = Returned "/etc/report.xlsx".
Proof.
  split.
  - apply (proj1 (proj2 (proj2 (write_xlsx_file_path
                                  [] "report.xlsx" "archive"
                                  (writers.mkDisk [] []))))).
    reflexivity.
  - apply (proj2 (proj2 (proj2 (write_xlsx_file_path
                                  [] "/etc/report.xlsx" "archive"
                                  (writers.mkDisk [] []))))).
    reflexivity.
Defined.

(* ================================================================== *)
(** ** Well-formed documents *)

Lemma count_well_formed (w : World) (filepath : string) (root : Element) :
  fs w filepath = WellFormed root -> iter_fault w = None ->
  count_upc_elements w filepath default_max_upc_estimate
  = Some (Z.min (Z.of_nat (count_tag "upc" root)) 1200001).
Proof.
  intros Hfs Hif. unfold count_upc_elements, scan_file, ET_iterparse.
  rewrite Hfs, Hif. cbn [fst snd].
  rewrite scan_events_char by (unfold default_max_upc_estimate; lia).
  rewrite upcs_in_end_events, Z.add_0_l. unfold default_max_upc_estimate.
  destruct (Z.of_nat (count_tag "upc" root) >? 1200000) eqn:E;
    f_equal; lia.
Qed.

(** X16.  When nothing fails around it, what the Parser does with a
    well-formed document is decided by two numbers, the [<upc>] elements it
    holds and the rows it yields: more than 1,000,000 [<upc>] elements, it
    is rejected before the full parse, with the count capped at 1,200,001
    in the reason; otherwise no rows, the empty notice; otherwise the table
    of all its rows.  The row ceiling is never what stops it. *)
Theorem well_formed_document (w : World) (filepath : string) (s : State)
        (root : Element) :
  fs w filepath = WellFormed root ->
  iter_fault w = None -> parse_fault w = None -> build_fault w = None ->
  (1000000 < Z.of_nat (count_tag "upc" root) ->
   parse_contact_lens_xml w filepath s
   = (Returned None,
      after_log w (os_path.basename filepath)
        (reason_too_many_upcs
           (Z.min (Z.of_nat (count_tag "upc" root)) 1200001)) s))
  /\
  (Z.of_nat (count_tag "upc" root) <= 1000000 ->
   parse_contact_lens_xml w filepath s
   = match extract_rows root with
     | [] =>
         (Returned None,
          after_print (no_upc_notice (os_path.basename filepath))
                      (after_parse filepath s))
     | _ :: _ =>
         (Returned (Some (table_of (extract_rows root))),
          after_parse filepath s)
     end).
Proof.
  intros Hfs Hif Hpf Hbf.
  pose proof (@count_well_formed w filepath root Hfs Hif) as Hc.
  assert (Hparse : ET_parse w filepath = Returned root)
    by (unfold ET_parse; now rewrite Hpf, Hfs).
  split; intros Hk.
  - apply parse_rejects_estimate; [exact Hc|lia].
  - assert (Hp : preflight_passes w filepath)
      by (unfold preflight_passes; rewrite Hc; lia).
    rewrite (@parse_proceeds w filepath s Hp).
    destruct (extract_rows root) as [|r rows] eqn:Hrows.
    + exact (@full_parse_empty w filepath _ s root Hparse Hbf Hrows).
    + assert (Hne : extract_rows root <> [])
        by (rewrite Hrows; discriminate).
      rewrite (@full_parse_rows w filepath _ s root Hparse Hbf Hne).
      pose proof (length_extract_rows root) as Hle.
      destruct (_ >? 1048576) eqn:E; [lia|now rewrite Hrows].
Qed.

Lemma well_formed_document_witness :
  parse_contact_lens_xml (quiet_world (WellFormed scenario_A)) "in/a.xml"
                         initial
  = (Returned (Some (table_of (extract_rows scenario_A))),
     after_parse "in/a.xml" initial).
Proof.
  refine (proj2 (@well_formed_document
                   (quiet_world (WellFormed scenario_A)) "in/a.xml" initial
                   scenario_A eq_refl eq_refl eq_refl eq_refl) _).
  vm_compute. discriminate.
Defined.
